(** * get-evidence: server/genome_analyzer.py

    A shallow embedding of the format sniffer ([detect_format]), the source
    normalizer ([process_source]) and the job runner ([genome_analyzer]) of
    [server/genome_analyzer.py], with the properties of the design document
    stated and settled against it.

    Lines are Python 2 [str] values as the file iterator produces them: a
    line keeps its trailing newline.  A stream is the list of its lines;
    [f_in.next()] takes the head and raises [StopIteration] on the empty
    list. *)

From Stdlib Require Import String Ascii.
From stdpp Require Import base option list strings gmap.

Open Scope string_scope.
Open Scope list_scope.

(** ** Python string primitives used by the program *)
Module PyStr.

Definition nl : ascii := "010"%char.
Definition tab : ascii := "009"%char.

(** [s.startswith(p)], and [re.match(p, s)] for a literal pattern [p]. *)
Definition startswith (p s : string) : bool := String.prefix p s.

(** [re.search(p, s)] for a literal pattern [p]: [p] occurs somewhere. *)
Fixpoint contains (p s : string) : bool :=
  startswith p s ||
  match s with
  | EmptyString => false
  | String _ s' => contains p s'
  end.

(** [s.endswith(p)]. *)
Fixpoint endswith (p s : string) : bool :=
  String.eqb p s ||
  match s with
  | EmptyString => false
  | String _ s' => endswith p s'
  end.

(** The part of [s] before its first newline: what [.*] can range over. *)
Fixpoint before_newline (s : string) : string :=
  match s with
  | EmptyString => EmptyString
  | String c s' => if Ascii.eqb c nl then EmptyString
                   else String c (before_newline s')
  end.

Fixpoint drop (n : nat) (s : string) : string :=
  match n, s with
  | S n', String _ s' => drop n' s'
  | _, _ => s
  end.

(** [s.split(sep)] for a one-character separator: never empty. *)
Fixpoint split_on (sep : ascii) (s : string) : list string :=
  match s with
  | EmptyString => [EmptyString]
  | String c s' =>
      if Ascii.eqb c sep then EmptyString :: split_on sep s'
      else match split_on sep s' with
           | f :: fs => String c f :: fs
           | [] => [String c EmptyString]
           end
  end.

(** Whitespace of Python 2 [str.split()]: space, \t, \n, \v, \f, \r. *)
Definition is_space (c : ascii) : bool :=
  let n := nat_of_ascii c in
  (n =? 32)%nat || ((9 <=? n)%nat && (n <=? 13)%nat).

(** [s.split()]: the maximal runs of non-whitespace characters. *)
Fixpoint split_ws (s : string) : list string :=
  match s with
  | EmptyString => []
  | String c s' =>
      if is_space c then split_ws s'
      else match s' with
           | EmptyString => [String c EmptyString]
           | String c' _ =>
               if is_space c' then String c EmptyString :: split_ws s'
               else match split_ws s' with
                    | w :: ws => String c w :: ws
                    | [] => [String c EmptyString]
                    end
           end
  end.

(** [s.rstrip(ch)] for a one-character set: every trailing [ch] goes. *)
Fixpoint rstrip_char (ch : ascii) (s : string) : string :=
  match s with
  | EmptyString => EmptyString
  | String c s' =>
      let r := rstrip_char ch s' in
      if Ascii.eqb c ch && String.eqb r EmptyString then EmptyString
      else String c r
  end.

(** [s.rstrip('\n')] *)
Definition rstrip_nl (s : string) : string := rstrip_char nl s.

(** [s + '\n'] *)
Definition with_nl (s : string) : string := s +:+ String nl EmptyString.

(** [re.match(r'[0-9]', s)]. *)
Definition match_digit (s : string) : bool :=
  match s with
  | String c _ => let n := nat_of_ascii c in (48 <=? n)%nat && (n <=? 57)%nat
  | EmptyString => false
  end.

Definition is_acgt (c : ascii) : bool :=
  Ascii.eqb c "A" || Ascii.eqb c "C" || Ascii.eqb c "G" || Ascii.eqb c "T".

(** [re.match(r'[ACGT][ACGT]', s)]. *)
Definition match_two_bases (s : string) : bool :=
  match s with
  | String a (String b _) => is_acgt a && is_acgt b
  | _ => false
  end.

(** [data[i]] where the caller has checked the length. *)
Definition field (i : nat) (data : list string) : string :=
  nth i data EmptyString.

(** [x in l] for a list of strings. *)
Definition str_in (x : string) (l : list string) : bool :=
  existsb (String.eqb x) l.

End PyStr.
Import PyStr.

(** ** FormatSniffer: [detect_format] *)
Module Sniffer.

Inductive format := GFF | CGIVAR | F23ANDME | UNKNOWN.

(** The string the source returns for each format. *)
Definition format_name (f : format) : string :=
  match f with
  | GFF => "GFF" | CGIVAR => "CGIVAR" | F23ANDME => "23ANDME"
  | UNKNOWN => "UNKNOWN"
  end.

#[global] Instance format_eq_dec : EqDecision format.
Proof. solve_decision. Defined.

(** [re.match('#', line)] *)
Definition is_comment (line : string) : bool := startswith "#" line.

(** [re.match(r'#TYPE.*VAR-ANNOTATION', line)] *)
Definition sig_cgivar (line : string) : bool :=
  startswith "#TYPE" line &&
  contains "VAR-ANNOTATION" (before_newline (drop 5 line)).

(** [re.match(r'##gff-version', line)] *)
Definition sig_gff (line : string) : bool := startswith "##gff-version" line.

(** [re.match(r'# This data file generated by 23andMe', line)] *)
Definition sig_23andme (line : string) : bool :=
  startswith "# This data file generated by 23andMe" line.

Definition is_cgi_like (data : list string) : bool :=
  startswith "chr" (field 3 data) &&
  match_digit (field 4 data) &&
  match_digit (field 5 data) &&
  (String.eqb (field 6 data) "no-call" || String.eqb (field 6 data) "ref").

Definition is_gff_like (data : list string) : bool :=
  match_digit (field 3 data) &&
  match_digit (field 4 data) &&
  String.eqb (field 6 data) "+".

Definition is_23andme_like (data : list string) : bool :=
  match_digit (field 2 data) &&
  match_two_bases (field 3 data) &&
  startswith "rs" (field 0 data).

(** What [detect_format] prints and what it returns. *)
Definition verdict : Type := string * format.

(** The [while re.match('#', line)] loop: either a verdict, or the first
    non-comment line together with the rest of the stream. *)
Fixpoint header_scan (line : string) (f_in : list string)
  : verdict + (string * list string) :=
  if is_comment line then
    if sig_cgivar line then inl ("CGIVAR detected", CGIVAR)
    else if sig_gff line then inl ("GFF detected", GFF)
    else if sig_23andme line then inl ("23andme detected", F23ANDME)
    else match f_in with
         | [] => inl ("Nothing but header?", UNKNOWN)
         | line' :: f_in' => header_scan line' f_in'
         end
  else inr (line, f_in).

Definition giving_up : verdict :=
  ("Giving up after 100 lines... Can't figure out data format.", UNKNOWN).

(** The [for i in range(100)] loop, [n] iterations left. *)
Fixpoint body_scan (n : nat) (line : string) (f_in : list string) : verdict :=
  match n with
  | O => giving_up
  | S n' =>
      let data := split_on tab line in
      if (length data <? 7)%nat then
        match f_in with
        | [] => ("Less than 100 lines?", UNKNOWN)
        | line' :: f_in' => body_scan n' line' f_in'
        end
      else if is_cgi_like data then ("CGIVAR guessed", CGIVAR)
      else if is_gff_like data then ("GFF guessed", GFF)
      else if is_23andme_like data then ("23ANDME guessed", F23ANDME)
      else match f_in with
           | [] => giving_up
           | line' :: f_in' => body_scan n' line' f_in'
           end
  end.

Definition detect_format_verdict (f_in : list string) : verdict :=
  match f_in with
  | [] => ("No lines in file?", UNKNOWN)
  | line :: f_in' =>
      match header_scan line f_in' with
      | inl v => v
      | inr (line', f_in'') => body_scan 100 line' f_in''
      end
  end.

Definition detect_format (f_in : list string) : format :=
  snd (detect_format_verdict f_in).

(** *** The two-phase reference algorithm, as the design document words it *)

Definition header_signature (line : string) : option format :=
  if sig_cgivar line then Some CGIVAR
  else if sig_gff line then Some GFF
  else if sig_23andme line then Some F23ANDME
  else None.

(** Shape of one body line; lines with fewer than 7 fields have none.
    Priority: CGIVAR, then GFF, then 23andMe. *)
Definition shape (line : string) : option format :=
  let data := split_on tab line in
  if (length data <? 7)%nat then None
  else if is_cgi_like data then Some CGIVAR
  else if is_gff_like data then Some GFF
  else if is_23andme_like data then Some F23ANDME
  else None.

Fixpoint first_some {A B} (f : A -> option B) (l : list A) : option B :=
  match l with
  | [] => None
  | x :: l' => match f x with Some y => Some y | None => first_some f l' end
  end.

Fixpoint leading_comments (s : list string) : list string :=
  match s with
  | l :: s' => if is_comment l then l :: leading_comments s' else []
  | [] => []
  end.

Fixpoint after_comments (s : list string) : list string :=
  match s with
  | l :: s' => if is_comment l then after_comments s' else s
  | [] => []
  end.

Definition detect_format_spec (s : list string) : format :=
  match first_some header_signature (leading_comments s) with
  | Some f => f
  | None =>
      match first_some shape (firstn 100 (after_comments s)) with
      | Some f => f
      | None => UNKNOWN
      end
  end.

End Sniffer.
Import Sniffer.

(** ** Effects shared by the normalizer and the job runner *)

(** Exceptions that escape a function. *)
Inductive exn :=
| UnboundLocalError (var : string)
| Exception (msg : string)
| AttributeError (msg : string)
| IOError (filename : string)
| StopIteration
| StageFailure (msg : string).   (* raised inside a collaborator stage *)

(** What the program does to the outside world, in program order. *)
Inductive event :=
| EServerClose
| EMkdir (dir : string)                        (* os.mkdir *)
| EOpenAppend (path : string)                  (* open(path, "a+", 0) *)
| EOpenFailed (path : string)                  (* the same call raising IOError *)
| EFlock (path : string) (ok : bool)           (* flock(LOCK_EX | LOCK_NB) *)
| ETruncate (path : string)                    (* seek(0); truncate(0) *)
| ERedirect (path : string)                    (* close 0,1,2; dup2 on 2 and 1 *)
| EPrint (msg : string)
| ELogPut (msg : string)                       (* Logger.put / progress tracker *)
| EShell (cmd : string)                        (* Popen(cmd, shell=True) *)
| ESpawnSort (argv : list string)              (* Popen(sort_cmd) *)
| EConvert (f : format)                        (* a converter wraps the source *)
| ESortWrite (line : string)                   (* sort_out.stdin.write *)
| ESortClose                                   (* sort_out.stdin.close *)
| EOpenWrite (path : string)                   (* open(path,'w'), gzip.open(path,'w') *)
| EWrite (path : string) (text : string)
| EClose (path : string)
| EStageWrite (path : string) (text : string)  (* a stage writes its output_file *)
| EMove (src dst : string)                     (* os.system("mv " + src + " " + dst) *)
| ERename (src dst : string)                   (* os.rename *)
| ECloseLog.                                   (* log_handle.close() *)

(** A computation: the events it performed, then an exception or a value. *)
Definition M (A : Type) : Type := list event * (exn + A).

Definition ret {A} (x : A) : M A := ([], inr x).
Definition raise {A} (e : exn) : M A := ([], inl e).
Definition emit (e : event) : M unit := ([e], inr tt).
Definition emits (es : list event) : M unit := (es, inr tt).
Definition bind {A B} (m : M A) (k : A -> M B) : M B :=
  match m with
  | (es, inl e) => (es, inl e)
  | (es, inr x) => let '(es', r) := k x in (es ++ es', r)
  end.

Declare Scope m_scope.
Delimit Scope m_scope with M.
Notation "x <- c1 ;; c2" := (bind c1 (fun x => c2))
  (at level 100, c1 at next level, right associativity) : m_scope.
Notation "c1 ;;; c2" := (bind c1 (fun _ => c2))
  (at level 100, right associativity) : m_scope.

Definition trace {A} (m : M A) : list event := fst m.
Definition result {A} (m : M A) : exn + A := snd m.

(** ** External collaborators *)

(** What a collaborator stage writes on the side while it is drained: the
    uncovered-region report, the evidence-hits report, a progress line. *)
Inductive stage_write :=
| ToMissing (text : string)
| ToGetev (text : string)
| ToProgress (text : string).

(** One full drain of the stage chain: for every line it yields, the side
    writes made before the yield; then the side writes made by the last
    pull, which ends in [StopIteration] ([None]) or in an exception. *)
Record chain_run := {
  pulls : list (list stage_write * string);
  final_writes : list stage_write;
  final_exn : option exn
}.

(** The [args] dictionary of [genome_analyzer]. *)
Record args := {
  genotype_input : string;
  miss_out : string;
  sorted_out : string;
  nonsyn_out : string;
  getev_out : string;
  metadata_out : string;
  genome_stats : string;
  genetests : string;
  getev_flat : string;
  dbsnp : string;
  reference : string;
  transcripts : string
}.

(** What the operating system answers when the runner opens the lock file
    of a workspace and asks for the lock: the file cannot be opened (the
    workspace directory is missing and [os.mkdir] could not create it, or
    it was [created] but the file cannot be opened in it), or the file is
    open and another process holds the lock, or the lock is granted. *)
Inductive lock_state :=
| Unopenable (created : bool)
| HeldElsewhere
| Free.

(** Everything the program reads from outside itself: the processes it
    spawns, the modules it imports, the environment and [config]. *)
Record env := {
  popen : string -> list string;               (* stdout lines of a shell command *)
  cgivar_convert : list string -> list string; (* cgivar_to_gff.convert *)
  from_23andme_convert : list string -> list string;   (* gff_from_23andme.convert *)
  unix_sort : list string -> list string;      (* sort: stdin lines to stdout lines *)
  lock_status : string -> lock_state;          (* open and flock of a lock file *)
  getenv_DATA : option string;                 (* os.getenv('DATA') *)
  stage_chain : args -> string -> list string -> chain_run;
  write_metadata : exn + list string;          (* progtrack.write_metadata *)
  GENETESTS_DATA : string;
  GETEV_FLAT : string;
  DBSNP_B36_SORTED : string;
  DBSNP_B37_SORTED : string;
  KNOWNGENE_HG18_SORTED : string;
  KNOWNGENE_HG19_SORTED : string;
  REFERENCE_GENOME_HG18 : string;
  REFERENCE_GENOME_HG19 : string
}.

(** [flock(LOCK_EX | LOCK_NB)] raises [IOError]: the file is open and
    another process holds the lock. *)
Definition flock_fails (E : env) (path : string) : bool :=
  match lock_status E path with
  | HeldElsewhere => true
  | _ => false
  end.

(** ** SourceNormalizer: [process_source] *)
Module Normalizer.

(** Lines 104-108: the command that reads the input. *)
Definition cat_command (genome_in : string) : string :=
  let cmd := "cat " +:+ genome_in in
  let cmd := if contains ".gz" genome_in then "zcat " +:+ genome_in else cmd in
  if contains ".bz2" genome_in then "bzcat " +:+ genome_in else cmd.

Definition sort_cmd : list string :=
  ["sort"; "--buffer-size=20%"; "--key=1,1"; "--key=4n,4"].

Definition b36_list : list string := ["hg18"; "36"; "b36"; "build36"; "NCBI36"].
Definition b37_list : list string := ["hg19"; "37"; "b37"; "build37"; "GRCh37"].

(** The local variables the [for line in gff_input] loop updates, with
    what it has written to the sort process so far. *)
Record loop_state := {
  header_done : bool;
  header : list string;
  genome_build : string;
  sort_stdin : list string
}.

Definition loop_init : loop_state :=
  {| header_done := false; header := []; genome_build := "b36";
     sort_stdin := [] |}.

(** Lines 140-148: the build a [##genome-build] line declares. *)
Definition declared_build (line : string) : exn + string :=
  let gbdata := split_ws line in
  if (length gbdata <? 2)%nat then inl (Exception "no genome build specified?")
  else if str_in (field 1 gbdata) b36_list then inr "b36"
  else if str_in (field 1 gbdata) b37_list then inr "b37"
  else inl (Exception "genome build uninterpretable").

(** Lines 136-152: one iteration of the loop. *)
Definition loop_body (st : loop_state) (line : string) : exn + loop_state :=
  if negb (header_done st) then
    if is_comment line then
      let hdr := header st ++ [line] in
      if startswith "##genome-build" line then
        match declared_build line with
        | inl e => inl e
        | inr b =>
            inr {| header_done := false; header := hdr; genome_build := b;
                   sort_stdin := sort_stdin st |}
        end
      else
        inr {| header_done := false; header := hdr;
               genome_build := genome_build st; sort_stdin := sort_stdin st |}
    else
      inr {| header_done := true; header := header st;
             genome_build := genome_build st; sort_stdin := sort_stdin st |}
  else
    inr {| header_done := true; header := header st;
           genome_build := genome_build st;
           sort_stdin := sort_stdin st ++ [with_nl (rstrip_nl line)] |}.


(** The loop: the state when it stops, and the exception that stopped it. *)
Fixpoint header_loop (st : loop_state) (gff_input : list string)
  : loop_state * option exn :=
  match gff_input with
  | [] => (st, None)
  | line :: rest =>
      match loop_body st line with
      | inl e => (st, Some e)
      | inr st' => header_loop st' rest
      end
  end.

Section WithEnv.
Variable E : env.

(** Lines 117-124: [gff_input] stays unbound for an unknown format. *)
Definition select_input (in_type : format) (source : list string)
  : M (option (list string)) :=
  match in_type with
  | GFF => ret (Some source)
  | CGIVAR => (emit (EConvert CGIVAR) ;;; ret (Some (cgivar_convert E source)))%M
  | F23ANDME =>
      (emit (EConvert F23ANDME) ;;; ret (Some (from_23andme_convert E source)))%M
  | UNKNOWN =>
      (emit (EPrint "ERROR: genome file format not recognized") ;;; ret None)%M
  end.

(** The generator run up to its end; the value is the sequence of its
    yields.  Nothing after the first [yield] can raise, so an exception
    means that nothing was yielded. *)
Definition process_source (genome_in : string) : M (list string) :=
  (let cmd := cat_command genome_in in
   emit (EShell cmd) ;;;
   let v := detect_format_verdict (popen E cmd) in
   emit (EPrint (fst v)) ;;;
   let in_type := snd v in
   emit (EShell cmd) ;;;
   gff_input <- select_input in_type (popen E cmd) ;;
   emit (ESpawnSort sort_cmd) ;;;
   match gff_input with
   | None => raise (UnboundLocalError "gff_input")
   | Some lines =>
       let '(st, err) := header_loop loop_init lines in
       emits (map ESortWrite (sort_stdin st)) ;;;
       match err with
       | Some e => raise e
       | None =>
           emit ESortClose ;;;
           ret (genome_build st
                :: map rstrip_nl (header st)
                ++ map rstrip_nl (unix_sort E (sort_stdin st)))
       end
   end)%M.

(** The stream the loop of lines 135-152 iterates over, when bound. *)
Definition gff_input_of (genome_in : string) : option (list string) :=
  let source := popen E (cat_command genome_in) in
  match result (select_input (detect_format source) source) with
  | inr lines => lines
  | inl _ => None
  end.

End WithEnv.

(** What the loop writes to the sort process for one data line. *)
Definition sort_line (line : string) : string := with_nl (rstrip_nl line).

Definition is_build_decl (line : string) : bool :=
  startswith "##genome-build" line.

Definition is_shell (e : event) : bool :=
  match e with EShell _ => true | _ => false end.

(** *** A reference model of the external sort

    Modelled from the spec: the external sort utility is not part of the
    repository; the design document fixes its contract as a total-order
    sort with composite key (field 1 lexical, field 4 numeric ascending).
    Fields are tab-delimited as in the canonical stream; rows that tie on
    the key keep their input order. *)

Fixpoint leading_number (acc : N) (s : string) : N :=
  match s with
  | String c s' =>
      let n := N_of_ascii c in
      if (48 <=? n)%N && (n <=? 57)%N
      then leading_number (acc * 10 + (n - 48))%N s'
      else acc
  | EmptyString => acc
  end.

Definition sort_key (line : string) : string * N :=
  let data := split_on tab line in
  (field 0 data, leading_number 0 (field 3 data)).

Definition key_le (a b : string * N) : bool :=
  match String.compare (fst a) (fst b) with
  | Lt => true
  | Gt => false
  | Eq => (snd a <=? snd b)%N
  end.

Fixpoint sort_insert (x : string) (l : list string) : list string :=
  match l with
  | [] => [x]
  | y :: l' =>
      if key_le (sort_key y) (sort_key x) then y :: sort_insert x l'
      else x :: l
  end.

Definition sort_model (l : list string) : list string :=
  foldl (fun acc x => sort_insert x acc) [] l.

End Normalizer.
Import Normalizer.

(** ** JobRunner: [genome_analyzer] *)
Module Runner.

(** [p[:p.rfind('/') + 1]] *)
Fixpoint dirname_head (p : string) : string :=
  match p with
  | EmptyString => EmptyString
  | String c p' =>
      if contains "/" p' then String c (dirname_head p')
      else if Ascii.eqb c "/" then "/" else EmptyString
  end.

(** [os.path.dirname] (posixpath): the head keeps its slashes only when
    it consists of nothing else. *)
Definition dirname (p : string) : string :=
  let head := dirname_head p in
  let stripped := rstrip_char "/" head in
  if String.eqb stripped EmptyString then head else stripped.

(** [os.path.join(a, b)] (posixpath). *)
Definition path_join (a b : string) : string :=
  if startswith "/" b then b
  else if String.eqb a EmptyString || endswith "/" a then a +:+ b
  else a +:+ "/" +:+ b.

Definition output_dir_of (genotype_file : string) : string :=
  dirname genotype_file +:+ "-out".

Definition lockfile_of (genotype_file : string) : string :=
  path_join (output_dir_of genotype_file) "lock".

Definition logfile_of (genotype_file : string) : string :=
  path_join (output_dir_of genotype_file) "log".

Definition tmp_of (path : string) : string := path +:+ ".tmp".

Inductive outcome :=
| Quit        (* the early [return]: the lock is held elsewhere *)
| Finished.   (* fell off the end of the function *)

(** The event a stage's side write becomes, given the paths the runner
    passed to the stages: [miss_out] to [report_uncovered], and
    [getev_out + ".tmp"] to [match_getev]; progress goes to the log. *)
Definition stage_event (a : args) (w : stage_write) : event :=
  match w with
  | ToMissing t => EStageWrite (miss_out a) t
  | ToGetev t => EStageWrite (tmp_of (getev_out a)) t
  | ToProgress t => ELogPut t
  end.

(** Lines 269-270: [for line in nonsyn_gen2: ns_out.write(line + "\n")]. *)
Fixpoint drain (a : args) (ps : list (list stage_write * string)) : list event :=
  match ps with
  | [] => []
  | (ws, line) :: ps' =>
      map (stage_event a) ws ++ EWrite (nonsyn_out a) (with_nl line) :: drain a ps'
  end.

Section WithEnv.
Variable E : env.

(** Lines 220-233. *)
Definition build_paths (data build : string) : M (string * string * string) :=
  if String.eqb build "b36" then
    ret (path_join data (DBSNP_B36_SORTED E),
         path_join data (REFERENCE_GENOME_HG18 E),
         path_join data (KNOWNGENE_HG18_SORTED E))
  else if String.eqb build "b37" then
    ret (path_join data (DBSNP_B37_SORTED E),
         path_join data (REFERENCE_GENOME_HG19 E),
         path_join data (KNOWNGENE_HG19_SORTED E))
  else raise (Exception "genome build data is invalid").

(** Lines 275-277. *)
Definition print_metadata (a : args) : M unit :=
  (emit (EOpenWrite (metadata_out a)) ;;;
   match write_metadata E with
   | inl e => raise e
   | inr lines =>
       emits (map (EWrite (metadata_out a)) lines) ;;;
       emit (EClose (metadata_out a))
   end)%M.

(** Lines 195-204 and 220-231: the [args] dictionary, complete. *)
Definition make_args (genotype_file output_dir data : string)
  (paths : string * string * string) : args :=
  let '(dbsnp_p, reference_p, transcripts_p) := paths in
  {| genotype_input := genotype_file;
     miss_out := path_join output_dir "missing_coding.json";
     sorted_out := path_join output_dir "source_sorted.gff.gz";
     nonsyn_out := path_join output_dir "ns.gff.gz";
     getev_out := path_join output_dir "get-evidence.json";
     metadata_out := path_join output_dir "metadata.json";
     genome_stats := path_join data "genome_stats.txt";
     genetests := path_join data (GENETESTS_DATA E);
     getev_flat := path_join data (GETEV_FLAT E);
     dbsnp := dbsnp_p;
     reference := reference_p;
     transcripts := transcripts_p |}.

(** Lines 271-283: what follows the drain. *)
Definition publish (a : args) (genotype_file lockfile logfile : string)
  : M outcome :=
  (emit (EClose (nonsyn_out a)) ;;;
   emit (EMove (tmp_of (getev_out a)) (getev_out a)) ;;;
   print_metadata a ;;;
   emit (ELogPut "#status 100 finished") ;;;
   emit (ERename lockfile logfile) ;;;
   emit ECloseLog ;;;
   emit (EPrint ("Finished processing file " +:+ genotype_file)) ;;;
   ret Finished)%M.

(** Lines 239-270: the stage chain is set up and drained. *)
Definition run_chain (a : args) (build : string) (gff_rest : list string)
  : M unit :=
  (emit (ELogPut "#status 4 processing genome data (get reference alleles, dbSNP IDs, nonsynonymous changes, etc.)") ;;;
   let run := stage_chain E a build gff_rest in
   emit (EOpenWrite (nonsyn_out a)) ;;;
   emits (drain a (pulls run)) ;;;
   emits (map (stage_event a) (final_writes run)) ;;;
   match final_exn run with
   | Some e => raise e
   | None => ret tt
   end)%M.

(** Lines 195-283: the run once the lock is held. *)
Definition locked_run (genotype_file output_dir lockfile logfile : string)
  : M outcome :=
  (data <- match getenv_DATA E with
           | Some d => ret d
           | None => raise (AttributeError "'NoneType' object has no attribute 'endswith'")
           end ;;
   emit (ELogPut "#status 0/100 calling process_source to process and sortinginput file") ;;;
   gff_in_gen <- process_source E genotype_file ;;
   match gff_in_gen with
   | [] => raise StopIteration
   | build :: gff_rest =>
       paths <- build_paths data build ;;
       let a := make_args genotype_file output_dir data paths in
       run_chain a build gff_rest ;;;
       publish a genotype_file lockfile logfile
   end)%M.

(** Lines 162-189: the gate.  [os.mkdir] may fail, which is ignored; the
    [open] of the lock file may fail, which is not.  [os.makedirs] at line
    209 is not reached: the directory exists once the lock file in it has
    been opened. *)
Definition genome_analyzer (genotype_file : string) (server : bool) : M outcome :=
  ((if server then emit EServerClose else ret tt) ;;;
   let output_dir := output_dir_of genotype_file in
   let lockfile := lockfile_of genotype_file in
   let logfile := logfile_of genotype_file in
   match lock_status E lockfile with
   | Unopenable false => ret tt
   | _ => emit (EMkdir output_dir)
   end ;;;
   match lock_status E lockfile with
   | Unopenable _ => emit (EOpenFailed lockfile) ;;; raise (IOError lockfile)
   | _ => emit (EOpenAppend lockfile)
   end ;;;
   if flock_fails E lockfile then
     emit (EFlock lockfile false) ;;;
     emit (EPrint "Lockfile really is locked.  Quitting.") ;;;
     ret Quit
   else
     emit (EFlock lockfile true) ;;;
     emit (ETruncate lockfile) ;;;
     emit (ERedirect lockfile) ;;;
     locked_run genotype_file output_dir lockfile logfile)%M.

End WithEnv.

(** *** The file system the events act on *)

Record fs := {
  dirs : gset string;
  files : gmap string (list string);   (* path to the chunks written *)
  console : list string;               (* the inherited standard output *)
  stdout_to : option string;           (* where descriptor 1 points now *)
  log_handle : option string           (* the file behind [log_handle] *)
}.

Definition set_files (f : gmap string (list string)) (w : fs) : fs :=
  {| dirs := dirs w; files := f; console := console w;
     stdout_to := stdout_to w; log_handle := log_handle w |}.

Definition append_file (p t : string) (w : fs) : fs :=
  set_files (<[p := default [] (files w !! p) ++ [t]]> (files w)) w.

(** An open descriptor follows its file through a rename. *)
Definition retarget (src dst : string) (h : option string) : option string :=
  match h with
  | Some p => if String.eqb p src then Some dst else Some p
  | None => None
  end.

Definition move (src dst : string) (w : fs) : fs :=
  match files w !! src with
  | Some c =>
      {| dirs := dirs w; files := <[dst := c]> (delete src (files w));
         console := console w;
         stdout_to := retarget src dst (stdout_to w);
         log_handle := retarget src dst (log_handle w) |}
  | None => w
  end.

(** Writes reach their file at once: the buffering of [sys.stdout] is not
    modelled, so nothing is said about the order of printed and logged
    lines inside the log, nor about what the interpreter prints after an
    exception has left the runner. *)
Definition apply_event (w : fs) (e : event) : fs :=
  match e with
  | EMkdir d =>
      {| dirs := {[d]} ∪ dirs w; files := files w; console := console w;
         stdout_to := stdout_to w; log_handle := log_handle w |}
  | EOpenAppend p =>
      {| dirs := dirs w;
         files := match files w !! p with
                  | Some _ => files w
                  | None => <[p := []]> (files w)
                  end;
         console := console w; stdout_to := stdout_to w;
         log_handle := Some p |}
  | ETruncate p => set_files (<[p := []]> (files w)) w
  | ERedirect p =>
      {| dirs := dirs w; files := files w; console := console w;
         stdout_to := Some p; log_handle := log_handle w |}
  | EPrint msg =>
      match stdout_to w with
      | Some p => append_file p msg w
      | None =>
          {| dirs := dirs w; files := files w; console := console w ++ [msg];
             stdout_to := None; log_handle := log_handle w |}
      end
  | ELogPut msg =>
      match log_handle w with
      | Some p => append_file p msg w
      | None => w
      end
  | EOpenWrite p => set_files (<[p := []]> (files w)) w
  | EWrite p t => append_file p t w
  | EStageWrite p t => append_file p t w
  | EMove src dst => move src dst w
  | ERename src dst => move src dst w
  | ECloseLog =>
      {| dirs := dirs w; files := files w; console := console w;
         stdout_to := stdout_to w; log_handle := None |}
  | _ => w
  end.

Definition replay (w : fs) (es : list event) : fs := foldl apply_event w es.

(** The state an outside observer can see after [k] events. *)
Definition observed (w : fs) (es : list event) (k : nat) : fs :=
  replay w (take k es).

End Runner.
Import Runner.

(** ** A small concrete installation, for running the model *)
Module Demo.

Definition row (fields : list string) : string :=
  with_nl (String.concat (String tab EmptyString) fields).

(** Two build declarations in the header, one more among the data. *)
Definition good_gff : list string :=
  [ with_nl "##gff-version 3";
    with_nl "##genome-build hg18";
    with_nl "##genome-build hg19";
    row ["chr2"; "src"; "SNP"; "40"; "40"; "."; "+"; "."; "alleles A/G"];
    row ["chr1"; "src"; "SNP"; "25"; "25"; "."; "+"; "."; "alleles C/T"];
    with_nl "##genome-build bogus";
    row ["chr1"; "src"; "SNP"; "7"; "7"; "."; "+"; "."; "alleles G"] ].

(** A header without any build declaration. *)
Definition nobuild_gff : list string :=
  [ with_nl "##gff-version 3";
    row ["chr1"; "src"; "SNP"; "25"; "25"; "."; "+"; "."; "alleles C/T"];
    row ["chr1"; "src"; "SNP"; "7"; "7"; "."; "+"; "."; "alleles G"] ].

Definition unknown_txt : list string :=
  [ with_nl "hello"; with_nl "world" ].

(** One declaration and two records of the same chromosome, out of order. *)
Definition minimal_gff : list string :=
  [ with_nl "##genome-build hg19";
    row ["chr1"; "src"; "SNP"; "25"; "25"; "."; "+"; "."; "alleles C/T"];
    row ["chr1"; "src"; "SNP"; "7"; "7"; "."; "+"; "."; "alleles G"] ].

Definition demo_popen (cmd : string) : list string :=
  if String.eqb cmd "cat /data/u1/genotype.gff" then good_gff
  else if String.eqb cmd "cat /data/u2/genotype.gff" then nobuild_gff
  else if String.eqb cmd "cat /data/u3/notes.txt" then unknown_txt
  else if String.eqb cmd "cat /data/u4/genotype.gff" then minimal_gff
  else [].

(** Stub stages: every record passes through and is reported as a hit. *)
Definition demo_chain (a : args) (build : string) (lines : list string)
  : chain_run :=
  {| pulls := map (fun l => ([ToGetev l], l)) lines;
     final_writes := [ToProgress "#status 99"];
     final_exn := None |}.

(** One workspace is held by another run, one cannot be created. *)
Definition demo_lock_status (path : string) : lock_state :=
  if String.eqb path "/data/busy-out/lock" then HeldElsewhere
  else if String.eqb path "/proc/u9-out/lock" then Unopenable false
  else Free.

Definition demo_env : env :=
  {| popen := demo_popen;
     cgivar_convert := fun s => s;
     from_23andme_convert := fun s => s;
     unix_sort := sort_model;
     lock_status := demo_lock_status;
     getenv_DATA := Some "/ref";
     stage_chain := demo_chain;
     write_metadata := inr ["{}"];
     GENETESTS_DATA := "genetests.txt";
     GETEV_FLAT := "getev.tsv";
     DBSNP_B36_SORTED := "dbsnp36.txt";
     DBSNP_B37_SORTED := "dbsnp37.txt";
     KNOWNGENE_HG18_SORTED := "kg18.txt";
     KNOWNGENE_HG19_SORTED := "kg19.txt";
     REFERENCE_GENOME_HG18 := "hg18.2bit";
     REFERENCE_GENOME_HG19 := "hg19.2bit" |}.

(** The same installation with [DATA] missing from the environment. *)
Definition demo_env_no_data : env :=
  {| popen := demo_popen;
     cgivar_convert := fun s => s;
     from_23andme_convert := fun s => s;
     unix_sort := sort_model;
     lock_status := demo_lock_status;
     getenv_DATA := None;
     stage_chain := demo_chain;
     write_metadata := inr ["{}"];
     GENETESTS_DATA := "genetests.txt";
     GETEV_FLAT := "getev.tsv";
     DBSNP_B36_SORTED := "dbsnp36.txt";
     DBSNP_B37_SORTED := "dbsnp37.txt";
     KNOWNGENE_HG18_SORTED := "kg18.txt";
     KNOWNGENE_HG19_SORTED := "kg19.txt";
     REFERENCE_GENOME_HG18 := "hg18.2bit";
     REFERENCE_GENOME_HG19 := "hg19.2bit" |}.

(** A workspace another run is holding. *)
Definition busy_fs : fs :=
  {| dirs := {["/data/busy-out"]};
     files := {["/data/busy-out/lock" := ["#status 4 processing"]]};
     console := []; stdout_to := None; log_handle := None |}.

Definition fresh_fs : fs :=
  {| dirs := ∅; files := ∅; console := []; stdout_to := None;
     log_handle := None |}.

End Demo.
Import Demo.

(** ** Statements used by the properties *)
Module Statements.

(** The design document on a missing build: a header without any build
    declaration makes [process_source] raise. *)
Definition missing_build_is_fatal (E : env) (g : string) : Prop :=
  forall lines,
    gff_input_of E g = Some lines ->
    Forall (fun l => is_build_decl l = false) (leading_comments lines) ->
    exists e, result (process_source E g) = inl e.

(** The design document on the input naming convention: the suffix of the name, and
    nothing else, selects the filter. *)
Definition suffix_selects_filter (g : string) : Prop :=
  (endswith ".gz" g = true -> cat_command g = "zcat " +:+ g)
  /\ (endswith ".bz2" g = true -> cat_command g = "bzcat " +:+ g)
  /\ (endswith ".gz" g = false -> endswith ".bz2" g = false ->
      cat_command g = "cat " +:+ g).

(** The end of a completed run (lines 279-283). *)
Definition finale (g : string) : list event :=
  [ELogPut "#status 100 finished";
   ERename (lockfile_of g) (logfile_of g);
   ECloseLog;
   EPrint ("Finished processing file " +:+ g)].

(** The four artifacts a job leaves in its workspace besides the log. *)
Definition artifact_names : list string :=
  ["missing_coding.json"; "ns.gff.gz"; "get-evidence.json"; "metadata.json"].

(** A path is published atomically by a run when, after any number of the
    run's events, an observer finds under that path either what was there
    before the run or what is there after it. *)
Definition atomic_publish (w : fs) (es : list event) (p : string) : Prop :=
  forall k : nat,
    files (observed w es k) !! p = files w !! p
    \/ files (observed w es k) !! p = files (replay w es) !! p.

(** The design document on artifacts: every one is published atomically. *)
Definition all_artifacts_atomic (E : env) (g : string) (server : bool) (w : fs)
  : Prop :=
  forall name, name ∈ artifact_names ->
    atomic_publish w (trace (genome_analyzer E g server))
      (path_join (output_dir_of g) name).

(** What the stage chain of a job is applied to, when the job gets there. *)
Definition chain_input (E : env) (g : string)
  : option (args * string * list string) :=
  match getenv_DATA E, result (process_source E g) with
  | Some data, inr (build :: gff_rest) =>
      match result (build_paths E data build) with
      | inr paths =>
          Some (make_args E g (output_dir_of g) data paths, build, gff_rest)
      | inl _ => None
      end
  | _, _ => None
  end.

(** Everything a full drain of the chain does, from opening the compressed
    output to closing it. *)
Definition full_drain (E : env) (a : args) (build : string)
  (gff_rest : list string) : list event :=
  let run := stage_chain E a build gff_rest in
  EOpenWrite (nonsyn_out a)
  :: drain a (pulls run) ++ map (stage_event a) (final_writes run)
  ++ [EClose (nonsyn_out a)].

(** Events that, while standard output and the log handle point at the
    lock file, neither move a file nor write to path [p]. *)
Definition body_event (p : string) (e : event) : bool :=
  match e with
  | EOpenWrite q | EWrite q _ | EStageWrite q _ | ETruncate q =>
      negb (String.eqb q p)
  | EMove _ _ | ERename _ _ | ERedirect _ | EOpenAppend _ | ECloseLog => false
  | _ => true
  end.

(** Standard output and the log handle both point at [lock]. *)
Definition logs_to (lock : string) (w : fs) : Prop :=
  stdout_to w = Some lock /\ log_handle w = Some lock.

(** Events of the gate: they act on the lock file and on nothing else. *)
Definition gate_event (lock : string) (e : event) : bool :=
  match e with
  | EServerClose | EMkdir _ | EFlock _ _ | ERedirect _ | EOpenFailed _ => true
  | EOpenAppend q | ETruncate q => String.eqb q lock
  | _ => false
  end.

(** No prefix of [es], run from [w], changes what is found under [p]. *)
Definition quiet_run (p : string) (w : fs) (es : list event) : Prop :=
  forall k : nat, files (replay w (take k es)) !! p = files w !! p.

(** The two values [genome_build] can hold. *)
Definition valid_build (b : string) : Prop := b = "b36" \/ b = "b37".

(** The exceptions the header loop raises. *)
Definition build_error (e : exn) : Prop :=
  e = Exception "no genome build specified?"
  \/ e = Exception "genome build uninterpretable".

(** Ends with a newline. *)
Definition ends_nl (s : string) : bool := endswith (String nl EmptyString) s.

(** What a run does before it asks for the lock: closing the inherited
    server socket, creating the workspace directory, opening the lock file
    in append mode (or failing to). *)
Definition prepares (e : event) : bool :=
  match e with
  | EServerClose | EMkdir _ | EOpenAppend _ | EOpenFailed _ => true
  | _ => false
  end.

(** The stream the loop iterates over for a detected format. *)
Definition converted (E : env) (f : format) (source : list string)
  : option (list string) :=
  match f with
  | GFF => Some source
  | CGIVAR => Some (cgivar_convert E source)
  | F23ANDME => Some (from_23andme_convert E source)
  | UNKNOWN => None
  end.

(** What lines 126-160 make of a stream: the exception of the loop, or the
    build, the header and the sorted rest. *)
Definition yields_of (E : env) (lines : list string) : exn + list string :=
  match header_loop loop_init lines with
  | (_, Some e) => inl e
  | (st, None) =>
      inr (genome_build st :: map rstrip_nl (header st)
           ++ map rstrip_nl (unix_sort E (sort_stdin st)))
  end.

(** Every step of a run succeeds: the lock is granted, [DATA] is set, the
    normalizer yields, the chain is drained without exception ([a], [build]
    and [gff_rest] are what it is applied to) and the metadata is written. *)
Definition all_steps_succeed (E : env) (g : string) : Prop :=
  lock_status E (lockfile_of g) = Free
  /\ exists a build gff_rest lines,
       chain_input E g = Some (a, build, gff_rest)
       /\ final_exn (stage_chain E a build gff_rest) = None
       /\ write_metadata E = inr lines.

(** The names the runner uses inside a workspace, the temporary name of
    the evidence report included. *)
Definition workspace_names : list string :=
  ["lock"; "log"; "missing_coding.json"; "source_sorted.gff.gz"; "ns.gff.gz";
   "get-evidence.json"; "get-evidence.json.tmp"; "metadata.json"].

End Statements.
Import Statements.

(** * Properties *)

(** ** String facts *)

Lemma startswith_cons (c : ascii) (p s : string) :
  startswith (String c p) s = true ->
  exists s', s = String c s' /\ startswith p s' = true.
Proof.
  unfold startswith. destruct s as [|b s']; simpl; [discriminate|].
  destruct (ascii_dec c b) as [->|]; [|discriminate].
  intros H. exists s'. split; [reflexivity | exact H].
Qed.

Lemma startswith_trans_comment (p s : string) :
  startswith (String "#" p) s = true -> is_comment s = true.
Proof.
  intros H. apply startswith_cons in H as (s' & -> & _).
  unfold is_comment, startswith. simpl.
  destruct s'; reflexivity.
Qed.



(** ** FormatSniffer *)

Lemma header_signature_comment (line : string) (f : format) :
  header_signature line = Some f -> is_comment line = true.
Proof.
  unfold header_signature, sig_cgivar, sig_gff, sig_23andme.
  destruct (startswith "#TYPE" line) eqn:H1; simpl.
  { intros _. eapply startswith_trans_comment, H1. }
  destruct (startswith "##gff-version" line) eqn:H2.
  { intros _. eapply startswith_trans_comment, H2. }
  destruct (startswith "# This data file generated by 23andMe" line) eqn:H3.
  { intros _. eapply startswith_trans_comment, H3. }
  discriminate.
Qed.

Lemma header_scan_hit (line : string) (f_in : list string) (f : format) :
  is_comment line = true -> header_signature line = Some f ->
  exists msg, header_scan line f_in = inl (msg, f).
Proof.
  intros Hc. unfold header_signature.
  destruct f_in; simpl; rewrite Hc;
    destruct (sig_cgivar line); try (intros [= <-]; eauto; fail);
    destruct (sig_gff line); try (intros [= <-]; eauto; fail);
    destruct (sig_23andme line); try (intros [= <-]; eauto; fail);
    discriminate.
Qed.

Lemma header_scan_miss (line : string) (f_in : list string) :
  is_comment line = true -> header_signature line = None ->
  header_scan line f_in =
  match f_in with
  | [] => inl ("Nothing but header?", UNKNOWN)
  | line' :: f_in' => header_scan line' f_in'
  end.
Proof.
  intros Hc. unfold header_signature.
  destruct f_in; simpl; rewrite Hc;
    destruct (sig_cgivar line); try discriminate;
    destruct (sig_gff line); try discriminate;
    destruct (sig_23andme line); try discriminate; reflexivity.
Qed.

(** The header loop either finds the first signature of the leading comment
    block, or runs out of stream inside the block, or stops at the first
    line after it. *)
Lemma header_scan_spec (f_in : list string) : forall line,
  match header_scan line f_in with
  | inl v =>
      first_some header_signature (leading_comments (line :: f_in)) = Some (snd v)
      \/ (first_some header_signature (leading_comments (line :: f_in)) = None
          /\ after_comments (line :: f_in) = [] /\ snd v = UNKNOWN)
  | inr (l, r) =>
      first_some header_signature (leading_comments (line :: f_in)) = None
      /\ after_comments (line :: f_in) = l :: r
  end.
Proof.
  induction f_in as [|line' f_in IH]; intros line.
  - cbn [leading_comments after_comments].
    destruct (is_comment line) eqn:Hc.
    + cbn [first_some]. destruct (header_signature line) as [f|] eqn:Hs.
      * destruct (header_scan_hit line [] f Hc Hs) as [msg ->]. left. reflexivity.
      * rewrite (header_scan_miss line [] Hc Hs). right. tauto.
    + simpl. rewrite Hc. tauto.
  - specialize (IH line').
    change (leading_comments (line :: line' :: f_in))
      with (if is_comment line then line :: leading_comments (line' :: f_in) else []).
    change (after_comments (line :: line' :: f_in))
      with (if is_comment line then after_comments (line' :: f_in)
            else line :: line' :: f_in).
    destruct (is_comment line) eqn:Hc.
    + cbn [first_some]. destruct (header_signature line) as [f|] eqn:Hs.
      * destruct (header_scan_hit line (line' :: f_in) f Hc Hs) as [msg ->].
        left. reflexivity.
      * rewrite (header_scan_miss line (line' :: f_in) Hc Hs). exact IH.
    + simpl. rewrite Hc. tauto.
Qed.

(** The body loop returns the shape of the first of the next [n] lines that
    has one. *)
Lemma body_scan_spec (n : nat) : forall line f_in,
  snd (body_scan n line f_in) =
  match first_some shape (firstn n (line :: f_in)) with
  | Some f => f
  | None => UNKNOWN
  end.
Proof.
  induction n as [|n IH]; intros line f_in; [reflexivity|].
  cbn [body_scan firstn first_some]. unfold shape at 1.
  destruct (length (split_on tab line) <? 7)%nat.
  - destruct f_in as [|l r]; [destruct n; reflexivity | apply IH].
  - destruct (is_cgi_like _); [reflexivity|].
    destruct (is_gff_like _); [reflexivity|].
    destruct (is_23andme_like _); [reflexivity|].
    destruct f_in as [|l r]; [destruct n; reflexivity | apply IH].
Qed.

Lemma chr_not_digit_nor_bases (s : string) :
  startswith "chr" s = true -> match_digit s = false /\ match_two_bases s = false.
Proof.
  intros H. apply startswith_cons in H as (s' & -> & _).
  split; [reflexivity | destruct s'; reflexivity].
Qed.

Lemma digit_not_bases (s : string) :
  match_digit s = true -> match_two_bases s = false.
Proof.
  destruct s as [|a [|b s]]; try reflexivity.
  unfold match_digit, match_two_bases, is_acgt.
  destruct a as [[] [] [] [] [] [] [] []]; simpl; try discriminate; reflexivity.
Qed.

(** The three shape predicates disagree on field 4, so no line satisfies
    two of them: the priority order never has to break a tie. *)
Lemma shapes_exclusive (data : list string) :
  (is_cgi_like data = true -> is_gff_like data = false /\ is_23andme_like data = false)
  /\ (is_gff_like data = true -> is_23andme_like data = false).
Proof.
  unfold is_cgi_like, is_gff_like, is_23andme_like. split.
  - intros H. repeat (apply andb_prop in H as [H _]).
    apply chr_not_digit_nor_bases in H as [-> ->].
    split; [reflexivity | apply andb_false_iff; left; apply andb_false_r].
  - intros H. repeat (apply andb_prop in H as [H _]).
    apply digit_not_bases in H as ->.
    apply andb_false_iff; left; apply andb_false_r.
Qed.

(** C2. [detect_format] computes the two-phase reference algorithm: the
    first header signature found in the leading comment block decides,
    whatever follows; without one, the first of the next 100 lines that has
    at least 7 tab-separated fields and a shape decides, CGIVAR before GFF
    before 23andMe; otherwise the answer is UNKNOWN. *)
Theorem detect_format_refines_spec (f_in : list string) :
  detect_format f_in = detect_format_spec f_in.
Proof.
  unfold detect_format, detect_format_verdict, detect_format_spec.
  destruct f_in as [|line f_in]; [reflexivity|].
  pose proof (header_scan_spec f_in line) as H.
  destruct (header_scan line f_in) as [v|[l r]].
  - destruct H as [-> | (-> & -> & ->)]; reflexivity.
  - destruct H as [-> ->]. apply body_scan_spec.
Qed.

(** ** SourceNormalizer: the header loop *)

Lemma comments_split (lines : list string) :
  lines = leading_comments lines ++ after_comments lines.
Proof.
  induction lines as [|l lines IH]; [reflexivity|].
  simpl. destruct (is_comment l); [simpl; f_equal; exact IH | reflexivity].
Qed.

Lemma leading_comments_all (lines : list string) :
  Forall (fun l => is_comment l = true) (leading_comments lines).
Proof.
  induction lines as [|l lines IH]; simpl; [constructor|].
  destruct (is_comment l) eqn:Hc; constructor; assumption.
Qed.

Lemma after_comments_head (lines : list string) :
  match after_comments lines with
  | [] => True
  | d :: _ => is_comment d = false
  end.
Proof.
  induction lines as [|l lines IH]; simpl; [exact I|].
  destruct (is_comment l) eqn:Hc; [exact IH | exact Hc].
Qed.

Lemma header_loop_app (l1 l2 : list string) : forall st,
  header_loop st (l1 ++ l2) =
  match header_loop st l1 with
  | (st', Some e) => (st', Some e)
  | (st', None) => header_loop st' l2
  end.
Proof.
  induction l1 as [|l l1 IH]; intros st; [reflexivity|].
  simpl. destruct (loop_body st l) as [e|st']; [reflexivity | apply IH].
Qed.

(** Once the header is done, every line goes to the sort process and
    nothing else changes. *)
Lemma header_loop_data (rest : list string) : forall st,
  header_done st = true ->
  header_loop st rest =
  ({| header_done := true; header := header st;
      genome_build := genome_build st;
      sort_stdin := sort_stdin st ++ map sort_line rest |}, None).
Proof.
  induction rest as [|l rest IH]; intros [hd h b s] Hd; simpl in Hd; subst hd.
  - simpl. rewrite app_nil_r. reflexivity.
  - cbn [header_loop]. unfold loop_body. cbn [header_done negb].
    rewrite IH by reflexivity. simpl. rewrite <- app_assoc. reflexivity.
Qed.

(** The first non-comment line only ends the header. *)
Lemma header_loop_first_data (d : string) (rest : list string) (st : loop_state) :
  header_done st = false -> is_comment d = false ->
  header_loop st (d :: rest) =
  ({| header_done := true; header := header st;
      genome_build := genome_build st;
      sort_stdin := sort_stdin st ++ map sort_line rest |}, None).
Proof.
  intros Hd Hc. cbn [header_loop]. unfold loop_body. rewrite Hd, Hc. simpl.
  rewrite header_loop_data by reflexivity. reflexivity.
Qed.

(** Comment lines that declare no build are only collected. *)
Lemma header_loop_plain (hdr : list string) : forall st,
  header_done st = false ->
  Forall (fun l => is_comment l = true) hdr ->
  Forall (fun l => is_build_decl l = false) hdr ->
  header_loop st hdr =
  ({| header_done := false; header := header st ++ hdr;
      genome_build := genome_build st; sort_stdin := sort_stdin st |}, None).
Proof.
  induction hdr as [|l hdr IH]; intros [hd h b s] Hd Hc Hn; simpl in Hd; subst hd.
  - simpl. rewrite app_nil_r. reflexivity.
  - inversion Hc as [|? ? Hcl Hc']; inversion Hn as [|? ? Hnl Hn']; subst.
    cbn [header_loop]. unfold loop_body. cbn [header_done negb].
    rewrite Hcl. unfold is_build_decl in Hnl. rewrite Hnl.
    rewrite IH by (reflexivity || assumption).
    simpl. rewrite <- app_assoc. reflexivity.
Qed.

(** Comment lines whose declarations are all recognized never raise, write
    nothing to the sort process and leave the loop in the header. *)
Lemma header_loop_recognized (hdr : list string) : forall st,
  header_done st = false ->
  Forall (fun l => is_comment l = true) hdr ->
  Forall (fun l => is_build_decl l = true -> exists b, declared_build l = inr b) hdr ->
  exists b, header_loop st hdr =
  ({| header_done := false; header := header st ++ hdr;
      genome_build := b; sort_stdin := sort_stdin st |}, None).
Proof.
  induction hdr as [|l hdr IH]; intros [hd h b s] Hd Hc Hr; simpl in Hd; subst hd.
  - exists b. simpl. rewrite app_nil_r. reflexivity.
  - inversion Hc as [|? ? Hcl Hc']; inversion Hr as [|? ? Hrl Hr']; subst.
    cbn [header_loop]. unfold loop_body. cbn [header_done negb].
    rewrite Hcl. unfold is_build_decl in Hrl.
    destruct (startswith "##genome-build" l).
    + destruct (Hrl eq_refl) as [b' ->].
      edestruct IH as [b'' ->]; [| exact Hc' | exact Hr' |]; [reflexivity|].
      exists b''. simpl. rewrite <- app_assoc. reflexivity.
    + edestruct IH as [b'' ->]; [| exact Hc' | exact Hr' |]; [reflexivity|].
      exists b''. simpl. rewrite <- app_assoc. reflexivity.
Qed.

(** A recognized declaration sets the build. *)
Lemma loop_body_decl (st : loop_state) (line b : string) :
  header_done st = false -> is_build_decl line = true ->
  declared_build line = inr b ->
  loop_body st line =
  inr {| header_done := false; header := header st ++ [line];
         genome_build := b; sort_stdin := sort_stdin st |}.
Proof.
  intros Hd Hk Hb. unfold loop_body. rewrite Hd. simpl.
  rewrite (startswith_trans_comment _ _ Hk).
  unfold is_build_decl in Hk. rewrite Hk, Hb. reflexivity.
Qed.

(** [process_source] in terms of its loop. *)
Lemma process_source_result (E : env) (g : string) (lines : list string) :
  gff_input_of E g = Some lines ->
  result (process_source E g) =
  match header_loop loop_init lines with
  | (_, Some e) => inl e
  | (st, None) =>
      inr (genome_build st :: map rstrip_nl (header st)
           ++ map rstrip_nl (unix_sort E (sort_stdin st)))
  end.
Proof.
  unfold gff_input_of, process_source, detect_format.
  destruct (snd (detect_format_verdict (popen E (cat_command g))));
    simpl; intros [= <-];
    match goal with
    | |- context [header_loop loop_init ?l] =>
        destruct (header_loop loop_init l) as [st [e|]]; reflexivity
    end.
Qed.

Lemma process_source_sort_input (E : env) (g : string) (lines : list string) :
  gff_input_of E g = Some lines ->
  exists pre post,
    trace (process_source E g) =
    pre ++ map ESortWrite (sort_stdin (fst (header_loop loop_init lines))) ++ post
    /\ Forall (fun e => forall l, e <> ESortWrite l) (pre ++ post).
Proof.
  unfold gff_input_of, process_source, detect_format.
  destruct (snd (detect_format_verdict (popen E (cat_command g))));
    simpl; intros [= <-];
    match goal with
    | |- context [header_loop loop_init ?l] =>
        destruct (header_loop loop_init l) as [st [e|]]
    end; simpl;
    match goal with
    | |- context [EConvert ?f :: ESpawnSort ?c :: map ESortWrite ?l ++ ?q] =>
        exists [EShell (cat_command g);
                EPrint (fst (detect_format_verdict (popen E (cat_command g))));
                EShell (cat_command g); EConvert f; ESpawnSort c], q
    | |- context [ESpawnSort ?c :: map ESortWrite ?l ++ ?q] =>
        exists [EShell (cat_command g);
                EPrint (fst (detect_format_verdict (popen E (cat_command g))));
                EShell (cat_command g); ESpawnSort c], q
    end;
    (split; [reflexivity | repeat constructor; discriminate]).
Qed.




(** The loop over a stream whose header block ends with a recognized
    declaration followed by comment lines that declare nothing. *)
Lemma header_loop_leading (h1 h2 body : list string) (decl b : string) :
  Forall (fun l => is_comment l = true) (h1 ++ decl :: h2) ->
  match body with [] => True | d :: _ => is_comment d = false end ->
  Forall (fun l => is_build_decl l = true -> exists b', declared_build l = inr b') h1 ->
  is_build_decl decl = true -> declared_build decl = inr b ->
  Forall (fun l => is_build_decl l = false) h2 ->
  header_loop loop_init (h1 ++ decl :: h2 ++ body) =
  ({| header_done := match body with [] => false | _ => true end;
      header := h1 ++ decl :: h2; genome_build := b;
      sort_stdin := map sort_line (tail body) |}, None).
Proof.
  intros Hc Hbody Hrec Hk Hb Hplain.
  apply Forall_app in Hc as [Hc1 Hc2]. inversion Hc2 as [|? ? _ Hc3]; subst.
  rewrite header_loop_app.
  destruct (header_loop_recognized h1 loop_init eq_refl Hc1 Hrec) as [b1 ->].
  cbn [header_loop]. rewrite loop_body_decl with (b := b)
    by (reflexivity || assumption).
  rewrite header_loop_app, header_loop_plain by (reflexivity || assumption).
  cbn [header sort_stdin genome_build app].
  rewrite <- app_assoc. cbn [app].
  destruct body as [|d rest]; [reflexivity|].
  rewrite header_loop_first_data by (reflexivity || assumption). reflexivity.
Qed.

(** C10. The yielded build comes from the leading comment block alone: of
    its recognized declarations the last one decides, and every line after
    the first non-comment line, a [##genome-build] line included (whatever
    its token), is written to the sort process and changes nothing else. *)
Theorem build_from_leading_comments
  (E : env) (g : string) (h1 h2 body : list string) (decl b : string) :
  gff_input_of E g = Some (h1 ++ decl :: h2 ++ body) ->
  Forall (fun l => is_comment l = true) (h1 ++ decl :: h2) ->
  match body with [] => True | d :: _ => is_comment d = false end ->
  Forall (fun l => is_build_decl l = true -> exists b', declared_build l = inr b') h1 ->
  is_build_decl decl = true -> declared_build decl = inr b ->
  Forall (fun l => is_build_decl l = false) h2 ->
  result (process_source E g) =
    inr (b :: map rstrip_nl (h1 ++ decl :: h2)
         ++ map rstrip_nl (unix_sort E (map sort_line (tail body))))
  /\ exists pre post,
       trace (process_source E g) =
       pre ++ map ESortWrite (map sort_line (tail body)) ++ post
       /\ Forall (fun e => forall l, e <> ESortWrite l) (pre ++ post).
Proof.
  intros Hin Hc Hbody Hrec Hk Hb Hplain.
  pose proof (header_loop_leading h1 h2 body decl b Hc Hbody Hrec Hk Hb Hplain) as HL.
  split.
  - rewrite (process_source_result E g _ Hin), HL. reflexivity.
  - destruct (process_source_sort_input E g _ Hin) as (pre & post & Ht & Hf).
    rewrite HL in Ht. exists pre, post. split; assumption.
Qed.

Lemma build_from_leading_comments_witness :
  result (process_source demo_env "/data/u1/genotype.gff") =
  inr ("b37"
       :: map rstrip_nl (firstn 3 good_gff)
       ++ map rstrip_nl (sort_model (map sort_line (skipn 4 good_gff)))).
Proof.
  refine (proj1 (build_from_leading_comments demo_env "/data/u1/genotype.gff"
            (firstn 2 good_gff) [] (skipn 3 good_gff)
            (with_nl "##genome-build hg19") "b37" eq_refl _ eq_refl _ eq_refl
            eq_refl _)).
  - repeat (apply Forall_cons; split; [reflexivity|]). apply Forall_nil_2.
  - apply Forall_cons; split; [discriminate|].
    apply Forall_cons; split; [intros _; exists "b36"; reflexivity|].
    apply Forall_nil_2.
  - apply Forall_nil_2.
Defined.

(** C3 fails: a GFF file whose header declares no build is processed and
    the initial value of [genome_build] is yielded. *)
Lemma missing_build_not_fatal :
  ~ missing_build_is_fatal demo_env "/data/u2/genotype.gff".
Proof.
  intros H. destruct (H nobuild_gff eq_refl) as [e He].
  - repeat constructor.
  - vm_compute in He. discriminate He.
Qed.

(** C3, amended. When the header block declares no build, nothing is raised
    and the first value yielded is the initial build, b36. *)
Theorem missing_build_defaults_b36 (E : env) (g : string) (lines : list string) :
  gff_input_of E g = Some lines ->
  Forall (fun l => is_build_decl l = false) (leading_comments lines) ->
  exists rest, result (process_source E g) = inr ("b36" :: rest).
Proof.
  intros Hin Hn. rewrite (process_source_result E g _ Hin).
  rewrite (comments_split lines), header_loop_app.
  rewrite header_loop_plain
    by (reflexivity || apply leading_comments_all || assumption).
  pose proof (after_comments_head lines) as Hd.
  destruct (after_comments lines) as [|d rest].
  - simpl. eauto.
  - rewrite header_loop_first_data by (reflexivity || assumption).
    simpl. eauto.
Qed.

Lemma missing_build_defaults_b36_witness :
  exists rest,
    result (process_source demo_env "/data/u2/genotype.gff") = inr ("b36" :: rest).
Proof.
  apply (missing_build_defaults_b36 demo_env "/data/u2/genotype.gff" nobuild_gff
           eq_refl).
  repeat constructor.
Defined.

(** C8. When the sniffer answers UNKNOWN, [process_source] prints the error,
    never binds [gff_input], and stops with the exception that reading it
    raises: the two reads of the input and the start of the sort process
    are all that happens, so no converter is applied and no line reaches
    the sort process. *)
Theorem unknown_format_aborts (E : env) (g : string) :
  detect_format (popen E (cat_command g)) = UNKNOWN ->
  process_source E g =
    ([EShell (cat_command g);
      EPrint (fst (detect_format_verdict (popen E (cat_command g))));
      EShell (cat_command g);
      EPrint "ERROR: genome file format not recognized";
      ESpawnSort sort_cmd],
     inl (UnboundLocalError "gff_input"))
  /\ (forall l, ESortWrite l ∉ trace (process_source E g))
  /\ (forall f, EConvert f ∉ trace (process_source E g)).
Proof.
  unfold detect_format. intros H.
  assert (Hp : process_source E g =
    ([EShell (cat_command g);
      EPrint (fst (detect_format_verdict (popen E (cat_command g))));
      EShell (cat_command g);
      EPrint "ERROR: genome file format not recognized";
      ESpawnSort sort_cmd],
     inl (UnboundLocalError "gff_input"))).
  { unfold process_source. rewrite H. reflexivity. }
  rewrite Hp. split; [reflexivity|].
  split; intros x Hx; simpl in Hx;
    repeat (apply elem_of_cons in Hx as [Hx|Hx]; [discriminate Hx|]);
    inversion Hx.
Qed.

Lemma unknown_format_aborts_witness :
  result (process_source demo_env "/data/u3/notes.txt") =
  inl (UnboundLocalError "gff_input").
Proof.
  rewrite (proj1 (unknown_format_aborts demo_env "/data/u3/notes.txt" eq_refl)).
  reflexivity.
Defined.

(** ** SourceNormalizer: the decompression filter *)

Lemma startswith_refl (s : string) : startswith s s = true.
Proof.
  unfold startswith. induction s as [|c s IH]; simpl; [reflexivity|].
  destruct (ascii_dec c c); [exact IH | congruence].
Qed.

Lemma endswith_contains (p s : string) :
  endswith p s = true -> contains p s = true.
Proof.
  induction s as [|c s IH]; cbn [contains endswith].
  - rewrite !orb_false_r. intros H%String.eqb_eq. subst. reflexivity.
  - intros [H%String.eqb_eq | H]%orb_true_iff.
    + rewrite H, startswith_refl. reflexivity.
    + rewrite (IH H). apply orb_true_r.
Qed.

(** A [.bz2] suffix always selects [bzcat]. *)
Lemma bz2_suffix_selects_bzcat (g : string) :
  endswith ".bz2" g = true -> cat_command g = "bzcat " +:+ g.
Proof.
  intros H. unfold cat_command. rewrite (endswith_contains _ _ H). reflexivity.
Qed.

(** A [.gz] suffix selects [zcat] unless [.bz2] occurs in the name too. *)
Lemma gz_suffix_selects_zcat (g : string) :
  endswith ".gz" g = true -> contains ".bz2" g = false ->
  cat_command g = "zcat " +:+ g.
Proof.
  intros H Hb. unfold cat_command. rewrite (endswith_contains _ _ H), Hb.
  reflexivity.
Qed.

Lemma no_shell_in_sort_writes (l : list string) :
  List.filter is_shell (map ESortWrite l) = [].
Proof. induction l as [|x l IH]; [reflexivity | exact IH]. Qed.

(** C9 fails: a name that merely contains [.gz] is read through [zcat]. *)
Lemma suffix_does_not_select_filter :
  ~ suffix_selects_filter "/data/u1/genome.gz.txt".
Proof.
  intros (_ & _ & H). specialize (H eq_refl eq_refl). discriminate H.
Qed.

(** C9, amended. The filter is selected by substring search in the input
    path: [bzcat] when [.bz2] occurs anywhere in it, otherwise [zcat] when
    [.gz] occurs anywhere in it, otherwise [cat]; the input is read twice,
    both times with that command. *)
Theorem filter_selected_by_substring (E : env) (g : string) :
  cat_command g =
    (if contains ".bz2" g then "bzcat "
     else if contains ".gz" g then "zcat " else "cat ") +:+ g
  /\ List.filter is_shell (trace (process_source E g)) =
     [EShell (cat_command g); EShell (cat_command g)].
Proof.
  split.
  - unfold cat_command.
    destruct (contains ".bz2" g), (contains ".gz" g); reflexivity.
  - unfold process_source.
    destruct (snd (detect_format_verdict (popen E (cat_command g)))); simpl;
      try reflexivity;
      match goal with
      | |- context [header_loop loop_init ?l] =>
          destruct (header_loop loop_init l) as [st [e|]]
      end; simpl;
      rewrite ?app_nil_r, ?List.filter_app, no_shell_in_sort_writes; reflexivity.
Qed.

(** ** SourceNormalizer: the output sequence *)

(** C1 fails on the code. On a GFF file with one declaration and two
    records, the first record only ends the header: it is not written to
    the sort process and is missing from the output. *)
Theorem first_record_is_dropped :
  gff_input_of demo_env "/data/u4/genotype.gff" = Some minimal_gff
  /\ result (process_source demo_env "/data/u4/genotype.gff") =
     inr ["b37"; "##genome-build hg19";
          rstrip_nl (row ["chr1"; "src"; "SNP"; "7"; "7"; "."; "+"; "."; "alleles G"])]
  /\ rstrip_nl (row ["chr1"; "src"; "SNP"; "25"; "25"; "."; "+"; "."; "alleles C/T"])
     ∉ ["b37"; "##genome-build hg19";
        rstrip_nl (row ["chr1"; "src"; "SNP"; "7"; "7"; "."; "+"; "."; "alleles G"])].
Proof.
  split; [reflexivity|]. split; [vm_compute; reflexivity|].
  intros H. vm_compute in H.
  repeat (apply elem_of_cons in H as [H|H]; [discriminate H|]).
  inversion H.
Qed.

(** ** JobRunner: paths of the workspace *)

Lemma append_cons (c : ascii) (a b : string) :
  String c a +:+ b = String c (a +:+ b).
Proof. reflexivity. Qed.

Lemma append_assoc (a b c : string) : (a +:+ b) +:+ c = a +:+ (b +:+ c).
Proof.
  induction a as [|x a IH]; [reflexivity|].
  rewrite !append_cons, IH. reflexivity.
Qed.

Lemma append_cancel_l (a x y : string) : a +:+ x = a +:+ y -> x = y.
Proof.
  induction a as [|c a IH]; [auto|].
  rewrite !append_cons. intros [= H]. exact (IH H).
Qed.

Lemma endswith_slash_out (d : string) : endswith "/" (d +:+ "-out") = false.
Proof.
  induction d as [|c d IH]; [reflexivity|].
  rewrite append_cons. cbn [endswith]. rewrite IH, orb_false_r.
  destruct (String.eqb "/" (String c (d +:+ "-out"))) eqn:H; [|reflexivity].
  apply String.eqb_eq in H. injection H as _ H. destruct d; discriminate H.
Qed.

(** The workspace is never the empty path nor a path ending in a slash, so
    joining a relative name to it inserts exactly one slash. *)
Lemma join_output_dir (g name : string) :
  startswith "/" name = false ->
  path_join (output_dir_of g) name = output_dir_of g +:+ "/" +:+ name.
Proof.
  intros H. unfold path_join, output_dir_of. rewrite H, endswith_slash_out.
  destruct (dirname g); reflexivity.
Qed.

Lemma join_output_dir_ne (g n1 n2 extra : string) :
  startswith "/" n1 = false -> startswith "/" n2 = false ->
  n1 +:+ extra <> n2 ->
  String.eqb (path_join (output_dir_of g) n1 +:+ extra)
             (path_join (output_dir_of g) n2) = false.
Proof.
  intros H1 H2 Hne. apply String.eqb_neq. intros Heq.
  rewrite !join_output_dir in Heq by assumption.
  rewrite !append_assoc in Heq.
  apply append_cancel_l in Heq. rewrite !append_cons in Heq.
  injection Heq as Heq. exact (Hne Heq).
Qed.

Lemma append_empty_r (s : string) : s +:+ "" = s.
Proof.
  induction s as [|c s IH]; [reflexivity|].
  rewrite append_cons, IH. reflexivity.
Qed.

Lemma join_output_dir_ne0 (g n1 n2 : string) :
  startswith "/" n1 = false -> startswith "/" n2 = false ->
  n1 <> n2 ->
  String.eqb (path_join (output_dir_of g) n1)
             (path_join (output_dir_of g) n2) = false.
Proof.
  intros H1 H2 Hne.
  rewrite <- (append_empty_r (path_join (output_dir_of g) n1)).
  apply join_output_dir_ne; [assumption | assumption |].
  rewrite append_empty_r. exact Hne.
Qed.

(** ** JobRunner: events acting on the file system *)

Lemma replay_app (w : fs) (es1 es2 : list event) :
  replay w (es1 ++ es2) = replay (replay w es1) es2.
Proof. apply foldl_app. Qed.

Lemma lookup_append_file_ne (p q t : string) (w : fs) :
  String.eqb q p = false ->
  files (append_file q t w) !! p = files w !! p.
Proof.
  intros H%String.eqb_neq. unfold append_file, set_files. simpl.
  apply lookup_insert_ne. exact H.
Qed.

Lemma is_Some_append_file (p q t : string) (w : fs) :
  is_Some (files w !! p) -> is_Some (files (append_file q t w) !! p).
Proof.
  intros H. unfold append_file, set_files. simpl.
  destruct (decide (q = p)) as [->|Hne].
  - rewrite lookup_insert_eq. eauto.
  - rewrite lookup_insert_ne by exact Hne. exact H.
Qed.

Lemma is_Some_insert_file (p q : string) (c : list string) (w : fs) :
  is_Some (files w !! p) -> is_Some (<[q := c]> (files w) !! p).
Proof.
  intros H. destruct (decide (q = p)) as [->|Hne].
  - rewrite lookup_insert_eq. eauto.
  - rewrite lookup_insert_ne by exact Hne. exact H.
Qed.

(** One body event, run while output goes to the lock file: output still
    goes there, [p] is untouched and the lock file is still there. *)
Lemma body_event_step (lock p : string) (w : fs) (e : event) :
  String.eqb lock p = false ->
  logs_to lock w ->
  body_event p e = true ->
  logs_to lock (apply_event w e)
  /\ files (apply_event w e) !! p = files w !! p
  /\ (is_Some (files w !! lock) -> is_Some (files (apply_event w e) !! lock)).
Proof.
  intros Hlp [Hout Hlog] He. unfold logs_to.
  destruct e; simpl in He; try discriminate He;
    try (apply negb_true_iff in He);
    unfold apply_event; rewrite ?Hout, ?Hlog;
    unfold append_file, set_files; cbn [files stdout_to log_handle];
    (split; [split; congruence|]);
    (split;
     [ first [reflexivity | apply lookup_insert_ne, String.eqb_neq; assumption]
     | intros Hs; first [exact Hs | apply is_Some_insert_file; exact Hs] ]).
Qed.

Lemma body_events_replay (lock p : string) (es : list event) : forall w,
  String.eqb lock p = false ->
  logs_to lock w ->
  Forall (fun e => body_event p e = true) es ->
  logs_to lock (replay w es)
  /\ files (replay w es) !! p = files w !! p
  /\ (is_Some (files w !! lock) -> is_Some (files (replay w es) !! lock)).
Proof.
  induction es as [|e es IH]; intros w Hlp Hw Hes.
  - simpl. tauto.
  - inversion Hes as [|? ? He Hes']; subst.
    destruct (body_event_step lock p w e Hlp Hw He) as (Hw' & Hp & Hl).
    destruct (IH (apply_event w e) Hlp Hw' Hes') as (Hw'' & Hp' & Hl').
    cbn [replay foldl]. fold (replay (apply_event w e) es).
    split; [exact Hw''|]. split; [congruence | tauto].
Qed.

(** ** JobRunner: the shape of a run *)

Lemma bind_inr {A B} (es : list event) (x : A) (k : A -> M B) :
  bind (es, inr x) k = (es ++ trace (k x), result (k x)).
Proof. unfold bind, trace, result. destruct (k x); reflexivity. Qed.

Lemma bind_inl {A B} (es : list event) (e : exn) (k : A -> M B) :
  bind (es, inl e) k = (es, inl e).
Proof. reflexivity. Qed.

Lemma publish_shape (E : env) (a : args) (g lock log : string) :
  publish E a g lock log =
  match write_metadata E with
  | inl e =>
      ([EClose (nonsyn_out a); EMove (tmp_of (getev_out a)) (getev_out a);
        EOpenWrite (metadata_out a)], inl e)
  | inr lines =>
      ([EClose (nonsyn_out a); EMove (tmp_of (getev_out a)) (getev_out a)]
       ++ (EOpenWrite (metadata_out a)
           :: map (EWrite (metadata_out a)) lines ++ [EClose (metadata_out a)])
       ++ [ELogPut "#status 100 finished"; ERename lock log; ECloseLog;
           EPrint ("Finished processing file " +:+ g)],
       inr Finished)
  end.
Proof.
  unfold publish, print_metadata, emit, emits, ret, raise.
  destruct (write_metadata E) as [e|lines]; [reflexivity|].
  rewrite !bind_inr. cbn [trace result fst snd bind app].
  rewrite <- !app_assoc. reflexivity.
Qed.

Lemma run_chain_shape (E : env) (a : args) (build : string) (rest : list string) :
  run_chain E a build rest =
  (ELogPut "#status 4 processing genome data (get reference alleles, dbSNP IDs, nonsynonymous changes, etc.)"
   :: EOpenWrite (nonsyn_out a)
   :: drain a (pulls (stage_chain E a build rest))
   ++ map (stage_event a) (final_writes (stage_chain E a build rest)),
   match final_exn (stage_chain E a build rest) with
   | Some e => inl e
   | None => inr tt
   end).
Proof.
  unfold run_chain, emit, emits, ret, raise.
  destruct (final_exn (stage_chain E a build rest)); simpl;
    rewrite ?app_nil_r; reflexivity.
Qed.

Lemma make_args_paths (E : env) (g out data : string)
  (paths : string * string * string) :
  let a := make_args E g out data paths in
  miss_out a = path_join out "missing_coding.json"
  /\ nonsyn_out a = path_join out "ns.gff.gz"
  /\ getev_out a = path_join out "get-evidence.json"
  /\ metadata_out a = path_join out "metadata.json".
Proof. destruct paths as [[? ?] ?]. simpl. tauto. Qed.

Lemma process_source_body (E : env) (g p : string) :
  Forall (fun e => body_event p e = true) (trace (process_source E g)).
Proof.
  assert (Hw : forall l, Forall (fun e => body_event p e = true) (map ESortWrite l)).
  { induction l; constructor; [reflexivity | assumption]. }
  unfold process_source.
  destruct (snd (detect_format_verdict (popen E (cat_command g)))); simpl;
    try (repeat constructor; fail);
    match goal with
    | |- context [header_loop loop_init ?l] =>
        destruct (header_loop loop_init l) as [st [e|]]
    end; simpl; rewrite ?app_nil_r;
    repeat (apply Forall_cons; split; [reflexivity|]);
    try apply Forall_app; try split; try apply Hw; repeat constructor.
Qed.

Lemma stage_events_body (a : args) (p : string) (ws : list stage_write) :
  String.eqb (miss_out a) p = false ->
  String.eqb (tmp_of (getev_out a)) p = false ->
  Forall (fun e => body_event p e = true) (map (stage_event a) ws).
Proof.
  intros H1 H2. induction ws as [|[t|t|t] ws IH]; simpl; constructor;
    try assumption; simpl; rewrite ?H1, ?H2; reflexivity.
Qed.

Lemma drain_body (a : args) (p : string) (ps : list (list stage_write * string)) :
  String.eqb (miss_out a) p = false ->
  String.eqb (tmp_of (getev_out a)) p = false ->
  String.eqb (nonsyn_out a) p = false ->
  Forall (fun e => body_event p e = true) (drain a ps).
Proof.
  intros H1 H2 H3. induction ps as [|[ws line] ps IH]; simpl; [constructor|].
  apply Forall_app. split; [apply stage_events_body; assumption|].
  constructor; [simpl; rewrite H3; reflexivity | exact IH].
Qed.

Lemma full_drain_body (E : env) (a : args) (p build : string) (rest : list string) :
  String.eqb (miss_out a) p = false ->
  String.eqb (tmp_of (getev_out a)) p = false ->
  String.eqb (nonsyn_out a) p = false ->
  Forall (fun e => body_event p e = true) (full_drain E a build rest).
Proof.
  intros H1 H2 H3. unfold full_drain.
  constructor; [simpl; rewrite H3; reflexivity|].
  apply Forall_app. split; [apply drain_body; assumption|].
  apply Forall_app. split; [apply stage_events_body; assumption|].
  repeat constructor.
Qed.

Lemma metadata_events_body (md p : string) (lines : list string) :
  String.eqb md p = false ->
  Forall (fun e => body_event p e = true)
    (EOpenWrite md :: map (EWrite md) lines ++ [EClose md]).
Proof.
  intros H. constructor; [simpl; rewrite H; reflexivity|].
  apply Forall_app. split; [|repeat constructor].
  induction lines; constructor; [simpl; rewrite H; reflexivity | assumption].
Qed.

Lemma trace_bind {A B} (m : M A) (k : A -> M B) :
  trace (bind m k) =
  trace m ++ match result m with inl _ => [] | inr x => trace (k x) end.
Proof.
  destruct m as [es [e|x]]; unfold bind, trace, result; simpl.
  - rewrite app_nil_r. reflexivity.
  - destruct (k x). reflexivity.
Qed.

Lemma result_bind {A B} (m : M A) (k : A -> M B) :
  result (bind m k) =
  match result m with inl e => inl e | inr x => result (k x) end.
Proof.
  destruct m as [es [e|x]]; unfold bind, trace, result; simpl; [reflexivity|].
  destruct (k x). reflexivity.
Qed.

Ltac run_step :=
  rewrite ?trace_bind, ?result_bind;
  cbn [result trace ret emit emits raise fst snd app].

(** A run that holds the lock either fails before the evidence report is
    moved, with body events only, or drains the chain completely, moves the
    report, and then either fails on the metadata or finishes. *)
Lemma locked_run_shape (E : env) (g : string) :
  let p := path_join (output_dir_of g) "get-evidence.json" in
  let m := locked_run E g (output_dir_of g) (lockfile_of g) (logfile_of g) in
  (exists e, result m = inl e /\ Forall (fun ev => body_event p ev = true) (trace m))
  \/ exists a build rest pre,
       chain_input E g = Some (a, build, rest)
       /\ getev_out a = p
       /\ final_exn (stage_chain E a build rest) = None
       /\ Forall (fun ev => body_event p ev = true) (pre ++ full_drain E a build rest)
       /\ String.eqb (metadata_out a) p = false
       /\ ((exists e, result m = inl e
            /\ trace m = (pre ++ full_drain E a build rest)
                         ++ EMove (tmp_of p) p :: [EOpenWrite (metadata_out a)])
           \/ (exists lines, result m = inr Finished
               /\ trace m = (pre ++ full_drain E a build rest)
                            ++ EMove (tmp_of p) p
                            :: (EOpenWrite (metadata_out a)
                                :: map (EWrite (metadata_out a)) lines
                                ++ [EClose (metadata_out a)])
                            ++ finale g)).
Proof.
  intros p m. subst m. unfold locked_run, chain_input.
  destruct (getenv_DATA E) as [data|];
    [|left; eexists; split; [reflexivity|constructor]].
  pose proof (process_source_body E g p) as Hps.
  destruct (process_source E g) as [pes [e|[|build rest]]];
    cbn [trace result fst snd] in Hps.
  - left. exists e. split; [reflexivity|].
    constructor; [reflexivity|]. cbn [app]. exact Hps.
  - left. exists StopIteration. split; [reflexivity|].
    constructor; [reflexivity|]. cbn [app]. rewrite app_nil_r. exact Hps.
  - assert (Hbp : exists r, build_paths E data build = ([], r)).
    { unfold build_paths. destruct (String.eqb build "b36"); [eexists; reflexivity|].
      destruct (String.eqb build "b37"); eexists; reflexivity. }
    destruct Hbp as [r Hbp]. repeat run_step. rewrite Hbp. repeat run_step.
    destruct r as [e|paths].
    + left. exists e. split; [reflexivity|]. rewrite app_nil_r.
      constructor; [reflexivity|exact Hps].
    + repeat run_step.
      set (a := make_args E g (output_dir_of g) data paths).
      destruct (make_args_paths E g (output_dir_of g) data paths)
        as (Hmiss & Hns & Hgetev & Hmd). fold a in Hmiss, Hns, Hgetev, Hmd.
      assert (H1 : String.eqb (miss_out a) p = false).
      { rewrite Hmiss. apply join_output_dir_ne0; [reflexivity..|discriminate]. }
      assert (H2 : String.eqb (tmp_of (getev_out a)) p = false).
      { rewrite Hgetev. apply join_output_dir_ne; [reflexivity..|discriminate]. }
      assert (H3 : String.eqb (nonsyn_out a) p = false).
      { rewrite Hns. apply join_output_dir_ne0; [reflexivity..|discriminate]. }
      assert (H4 : String.eqb (metadata_out a) p = false).
      { rewrite Hmd. apply join_output_dir_ne0; [reflexivity..|discriminate]. }
      pose proof (full_drain_body E a p build rest H1 H2 H3) as Hfd.
      rewrite run_chain_shape, publish_shape. unfold full_drain in *.
      set (run := stage_chain E a build rest) in *.
      cbn [trace result fst snd].
      destruct (final_exn run) as [e|] eqn:Hexn.
      * left. exists e. split; [reflexivity|]. rewrite app_nil_r.
        constructor; [reflexivity|]. apply Forall_app. split; [exact Hps|].
        constructor; [reflexivity|].
        inversion Hfd as [|? ? Ho Hrest]; subst.
        constructor; [exact Ho|].
        rewrite app_assoc in Hrest. apply Forall_app in Hrest as [Hrest _].
        exact Hrest.
      * right.
        exists a, build, rest,
          (ELogPut "#status 0/100 calling process_source to process and sortinginput file"
           :: pes ++ [ELogPut "#status 4 processing genome data (get reference alleles, dbSNP IDs, nonsynonymous changes, etc.)"]).
        fold run. rewrite Hexn, Hgetev. fold p.
        split; [reflexivity|]. split; [reflexivity|]. split; [reflexivity|].
        split.
        { cbn [app]. constructor; [reflexivity|]. rewrite <- app_assoc.
          apply Forall_app. split; [exact Hps|].
          constructor; [reflexivity|]. exact Hfd. }
        split; [exact H4|].
        destruct (write_metadata E) as [e|lines];
          [left; exists e | right; exists lines];
          (split; [reflexivity|]); cbn [trace result fst snd app];
          rewrite ?app_nil_r, <- ?app_assoc; cbn [app];
          rewrite <- ?app_assoc; reflexivity.
Qed.

(** The gate of lines 162-189 in front of the locked run. *)
Lemma genome_analyzer_gate (E : env) (g : string) (server : bool) :
  let gate := (if server then [EServerClose] else [])
              ++ [EMkdir (output_dir_of g); EOpenAppend (lockfile_of g)] in
  let m := locked_run E g (output_dir_of g) (lockfile_of g) (logfile_of g) in
  genome_analyzer E g server =
  match lock_status E (lockfile_of g) with
  | Unopenable created =>
      ((if server then [EServerClose] else [])
       ++ (if created then [EMkdir (output_dir_of g)] else [])
       ++ [EOpenFailed (lockfile_of g)], inl (IOError (lockfile_of g)))
  | HeldElsewhere =>
      (gate ++ [EFlock (lockfile_of g) false;
                EPrint "Lockfile really is locked.  Quitting."], inr Quit)
  | Free =>
      (gate ++ [EFlock (lockfile_of g) true; ETruncate (lockfile_of g);
                ERedirect (lockfile_of g)] ++ trace m, result m)
  end.
Proof.
  intros gate m. subst gate m. unfold genome_analyzer, flock_fails.
  destruct (lock_status E (lockfile_of g)) as [[|]| |].
  - destruct server; reflexivity.
  - destruct server; reflexivity.
  - destruct server; reflexivity.
  - destruct (locked_run E g (output_dir_of g) (lockfile_of g) (logfile_of g))
      as [es r].
    destruct server; reflexivity.
Qed.

Lemma flock_fails_held (E : env) (p : string) :
  flock_fails E p = true -> lock_status E p = HeldElsewhere.
Proof. unfold flock_fails. destruct (lock_status E p); congruence. Qed.

Lemma lock_is_not_evidence (g : string) :
  String.eqb (lockfile_of g) (path_join (output_dir_of g) "get-evidence.json")
  = false.
Proof.
  apply join_output_dir_ne0; [reflexivity | reflexivity | discriminate].
Qed.

Lemma log_is_not_lock (g : string) : logfile_of g <> lockfile_of g.
Proof.
  apply String.eqb_neq.
  apply join_output_dir_ne0; [reflexivity | reflexivity | discriminate].
Qed.

Lemma log_is_not_evidence (g : string) :
  String.eqb (logfile_of g) (path_join (output_dir_of g) "get-evidence.json")
  = false.
Proof.
  apply join_output_dir_ne0; [reflexivity | reflexivity | discriminate].
Qed.

Lemma body_event_not_rename (p : string) (e : event) :
  body_event p e = true ->
  (forall s d, e <> ERename s d) /\ (forall s d, e <> EMove s d).
Proof. destruct e; simpl; intros H; split; intros; discriminate. Qed.

Lemma body_events_no_rename (p : string) (es : list event) (s d : string) :
  Forall (fun e => body_event p e = true) es -> ERename s d ∉ es.
Proof.
  intros H Hin. rewrite Forall_forall in H. apply H in Hin. discriminate Hin.
Qed.

(** The state after the gate of a run that got the lock. *)
Lemma after_gate (g : string) (server : bool) (w : fs) :
  let w1 := replay w (((if server then [EServerClose] else [])
                       ++ [EMkdir (output_dir_of g); EOpenAppend (lockfile_of g)])
                      ++ [EFlock (lockfile_of g) true; ETruncate (lockfile_of g);
                          ERedirect (lockfile_of g)]) in
  logs_to (lockfile_of g) w1
  /\ is_Some (files w1 !! lockfile_of g)
  /\ forall p, String.eqb (lockfile_of g) p = false ->
               files w1 !! p = files w !! p.
Proof.
  destruct server; cbn [app replay foldl apply_event];
    unfold logs_to, set_files; cbn [files stdout_to log_handle];
    (split; [split; reflexivity|]);
    (split; [rewrite lookup_insert_eq; eauto|]);
    intros p Hp%String.eqb_neq;
    rewrite lookup_insert_ne by exact Hp;
    destruct (files w !! lockfile_of g);
    rewrite ?lookup_insert_ne by exact Hp; reflexivity.
Qed.

Lemma move_keeps (src dst q : string) (w : fs) :
  src <> q -> is_Some (files w !! q) -> is_Some (files (move src dst w) !! q).
Proof.
  intros Hne H. unfold move. destruct (files w !! src) as [c|]; [|exact H].
  cbn [files]. destruct (decide (dst = q)) as [->|Hd].
  - rewrite lookup_insert_eq. eauto.
  - rewrite lookup_insert_ne, lookup_delete_ne by assumption. exact H.
Qed.

Lemma move_logs_to (src dst lock : string) (w : fs) :
  String.eqb lock src = false -> logs_to lock w -> logs_to lock (move src dst w).
Proof.
  intros Hne [Ho Hl]. unfold move, logs_to.
  destruct (files w !! src); [|tauto].
  cbn [stdout_to log_handle]. rewrite Ho, Hl. cbn [retarget]. rewrite Hne. tauto.
Qed.

(** What the end of a completed run does to the lock file: it disappears
    under its name, reappears as the log, and the handle is closed. *)
Lemma finale_replay (g : string) (w : fs) :
  logs_to (lockfile_of g) w ->
  is_Some (files w !! lockfile_of g) ->
  files (replay w (finale g)) !! lockfile_of g = None
  /\ is_Some (files (replay w (finale g)) !! logfile_of g)
  /\ log_handle (replay w (finale g)) = None.
Proof.
  intros [Ho Hl] [c Hc]. pose proof (log_is_not_lock g) as Hne.
  unfold finale. cbn [replay foldl].
  set (w1 := apply_event w (ELogPut "#status 100 finished")).
  assert (H1 : is_Some (files w1 !! lockfile_of g)
               /\ stdout_to w1 = Some (lockfile_of g)).
  { subst w1. cbn [apply_event]. rewrite Hl. split.
    - apply is_Some_append_file. eauto.
    - exact Ho. }
  destruct H1 as [[c1 F1] O1].
  set (w2 := apply_event w1 (ERename (lockfile_of g) (logfile_of g))).
  assert (H2 : files w2 !! lockfile_of g = None
               /\ is_Some (files w2 !! logfile_of g)
               /\ stdout_to w2 = Some (logfile_of g)).
  { subst w2. cbn [apply_event]. unfold move. rewrite F1.
    cbn [files stdout_to]. rewrite O1. cbn [retarget].
    rewrite String.eqb_refl. split; [|split; [|reflexivity]].
    - rewrite lookup_insert_ne by exact Hne. apply lookup_delete_eq.
    - rewrite lookup_insert_eq. eauto. }
  destruct H2 as (F2 & L2 & O2).
  cbn [apply_event stdout_to]. rewrite O2.
  unfold append_file, set_files. cbn [files log_handle].
  split; [|split; [|reflexivity]].
  - rewrite lookup_insert_ne by exact Hne. exact F2.
  - rewrite lookup_insert_eq. eauto.
Qed.

Lemma finale_quiet (g p : string) (w : fs) :
  logs_to (lockfile_of g) w ->
  String.eqb (lockfile_of g) p = false ->
  String.eqb (logfile_of g) p = false ->
  quiet_run p w (finale g).
Proof.
  intros [Ho Hl] Hlock%String.eqb_neq Hlog%String.eqb_neq k.
  assert (Hstep : forall q t w0, q <> p ->
            files (append_file q t w0) !! p = files w0 !! p).
  { intros q t w0 Hq. unfold append_file, set_files. cbn [files].
    apply lookup_insert_ne. exact Hq. }
  assert (Hmove : forall w0, files (move (lockfile_of g) (logfile_of g) w0) !! p
                             = files w0 !! p).
  { intros w0. unfold move. destruct (files w0 !! lockfile_of g); [|reflexivity].
    cbn [files]. rewrite lookup_insert_ne, lookup_delete_ne by assumption.
    reflexivity. }
  assert (Hout : forall w0, stdout_to w0 = Some (lockfile_of g) ->
            exists q, q <> p /\ stdout_to (move (lockfile_of g) (logfile_of g) w0)
                                = Some q).
  { intros w0 H0. unfold move. destruct (files w0 !! lockfile_of g).
    - cbn [stdout_to]. rewrite H0. cbn [retarget]. rewrite String.eqb_refl. eauto.
    - rewrite H0. eauto. }
  unfold finale.
  destruct k as [|[|[|[|k]]]]; cbn [take firstn replay foldl apply_event];
    try reflexivity; rewrite Hl.
  - apply Hstep. exact Hlock.
  - rewrite Hmove. apply Hstep. exact Hlock.
  - cbn [files]. rewrite Hmove. apply Hstep. exact Hlock.
  - destruct (Hout (append_file (lockfile_of g) "#status 100 finished" w))
      as (q & Hq & Hs); [exact Ho|].
    destruct k; cbn [take firstn foldl apply_event stdout_to];
      rewrite Hs, Hstep by exact Hq; cbn [files];
      rewrite Hmove; apply Hstep; exact Hlock.
Qed.

(** ** JobRunner: the lock *)

(** C5. When another run holds the lock of the workspace, the runner
    returns without raising after opening the lock file in append mode and
    printing one diagnostic on its inherited standard output: it does not
    truncate the lock file, puts no line in the log, and leaves every file
    and directory as it was. *)
Theorem held_lock_leaves_workspace_untouched
  (E : env) (g : string) (server : bool) (w : fs) :
  flock_fails E (lockfile_of g) = true ->
  is_Some (files w !! lockfile_of g) ->
  output_dir_of g ∈ dirs w ->
  stdout_to w = None ->
  let m := genome_analyzer E g server in
  result m = inr Quit
  /\ trace m = (if server then [EServerClose] else [])
               ++ [EMkdir (output_dir_of g); EOpenAppend (lockfile_of g);
                   EFlock (lockfile_of g) false;
                   EPrint "Lockfile really is locked.  Quitting."]
  /\ files (replay w (trace m)) = files w
  /\ dirs (replay w (trace m)) = dirs w
  /\ console (replay w (trace m))
     = console w ++ ["Lockfile really is locked.  Quitting."].
Proof.
  intros Hheld [c Hc] Hdir Hout m. subst m.
  rewrite genome_analyzer_gate, (flock_fails_held _ _ Hheld).
  cbn [result trace fst snd].
  split; [reflexivity|]. split; [rewrite <- app_assoc; reflexivity|].
  destruct server; cbn [app replay foldl apply_event files dirs stdout_to];
    rewrite Hc, Hout; cbn [files dirs console];
    (split; [reflexivity|]);
    (split; [apply subseteq_union_1_L, singleton_subseteq_l; exact Hdir
            | reflexivity]).
Qed.

Lemma held_lock_leaves_workspace_untouched_witness :
  result (genome_analyzer demo_env "/data/busy/genotype.gff" true) = inr Quit
  /\ files (replay busy_fs
              (trace (genome_analyzer demo_env "/data/busy/genotype.gff" true)))
     = files busy_fs.
Proof.
  assert (Hdir : output_dir_of "/data/busy/genotype.gff" ∈ dirs busy_fs).
  { vm_compute. reflexivity. }
  assert (Hlock : is_Some (files busy_fs !! lockfile_of "/data/busy/genotype.gff")).
  { exists ["#status 4 processing"]. reflexivity. }
  destruct (held_lock_leaves_workspace_untouched demo_env
              "/data/busy/genotype.gff" true busy_fs eq_refl Hlock Hdir eq_refl)
    as (Hr & _ & Hf & _).
  split; [exact Hr | exact Hf].
Defined.

Lemma chain_input_inv (E : env) (g : string) (a : args) (build : string)
  (rest : list string) :
  chain_input E g = Some (a, build, rest) ->
  exists data paths,
    getenv_DATA E = Some data
    /\ result (process_source E g) = inr (build :: rest)
    /\ build_paths E data build = ([], inr paths)
    /\ a = make_args E g (output_dir_of g) data paths.
Proof.
  unfold chain_input. destruct (getenv_DATA E) as [data|]; [|discriminate].
  destruct (result (process_source E g)) as [e|[|b r]]; try discriminate.
  unfold build_paths.
  destruct (String.eqb b "b36") eqn:H36.
  { cbn [result ret snd]. intros H. injection H as Ha Hb Hr. subst.
    eexists _, _. rewrite H36. repeat split; reflexivity. }
  destruct (String.eqb b "b37") eqn:H37; [|discriminate].
  cbn [result ret snd]. intros H. injection H as Ha Hb Hr. subst.
  eexists _, _. rewrite H36, H37. repeat split; reflexivity.
Qed.

(** A run that holds the lock and whose chain is drained without exception:
    the drain, the move of the evidence report, the metadata report opened
    under its final name, and then either the failure of the metadata or
    the end of a finished run. *)
Lemma drained_run_trace (E : env) (g : string) (server : bool)
  (a : args) (build : string) (rest : list string) :
  lock_status E (lockfile_of g) = Free ->
  chain_input E g = Some (a, build, rest) ->
  final_exn (stage_chain E a build rest) = None ->
  (miss_out a = path_join (output_dir_of g) "missing_coding.json"
   /\ nonsyn_out a = path_join (output_dir_of g) "ns.gff.gz"
   /\ getev_out a = path_join (output_dir_of g) "get-evidence.json"
   /\ metadata_out a = path_join (output_dir_of g) "metadata.json")
  /\ trace (genome_analyzer E g server) =
     ((((if server then [EServerClose] else [])
        ++ [EMkdir (output_dir_of g); EOpenAppend (lockfile_of g)])
       ++ [EFlock (lockfile_of g) true; ETruncate (lockfile_of g);
           ERedirect (lockfile_of g)])
      ++ (ELogPut "#status 0/100 calling process_source to process and sortinginput file"
          :: trace (process_source E g)
          ++ [ELogPut "#status 4 processing genome data (get reference alleles, dbSNP IDs, nonsynonymous changes, etc.)"]))
     ++ full_drain E a build rest
     ++ EMove (tmp_of (getev_out a)) (getev_out a)
     :: EOpenWrite (metadata_out a)
     :: match write_metadata E with
        | inl _ => []
        | inr lines =>
            map (EWrite (metadata_out a)) lines ++ [EClose (metadata_out a)]
            ++ finale g
        end
  /\ result (genome_analyzer E g server) =
     match write_metadata E with
     | inl e => inl e
     | inr _ => inr Finished
     end.
Proof.
  intros Hfree Hci Hexn.
  destruct (chain_input_inv E g a build rest Hci) as (data & paths & Hd & Hps & Hbp & ->).
  pose proof (genome_analyzer_gate E g server) as Hg. cbv zeta in Hg.
  rewrite Hg, Hfree. clear Hg. cbn [trace result fst snd].
  split; [apply make_args_paths|].
  unfold locked_run. rewrite Hd.
  destruct (process_source E g) as [pes r]. cbn [result snd] in Hps. subst r.
  repeat run_step. rewrite Hbp. repeat run_step.
  rewrite run_chain_shape, publish_shape, Hexn. unfold full_drain, finale.
  cbn [trace result fst snd].
  destruct (write_metadata E) as [e|lines]; cbn [trace result fst snd];
    (split; [|reflexivity]);
    repeat (progress (rewrite <- ?app_assoc; cbn [app])); reflexivity.
Qed.

(** A finished run is one in which every step succeeded. *)
Lemma finished_all_steps (E : env) (g : string) (server : bool) :
  result (genome_analyzer E g server) = inr Finished -> all_steps_succeed E g.
Proof.
  pose proof (genome_analyzer_gate E g server) as Hg. cbv zeta in Hg.
  rewrite Hg. clear Hg. unfold all_steps_succeed.
  destruct (lock_status E (lockfile_of g)) as [created| |];
    cbn [trace result fst snd]; [discriminate | discriminate |].
  intros Hres. split; [reflexivity|].
  unfold locked_run, chain_input in *.
  destruct (getenv_DATA E) as [data|]; [|discriminate].
  destruct (process_source E g) as [pes [e|[|build rest]]];
    [discriminate | discriminate |].
  assert (Hbp : exists r, build_paths E data build = ([], r)).
  { unfold build_paths. destruct (String.eqb build "b36"); [eexists; reflexivity|].
    destruct (String.eqb build "b37"); eexists; reflexivity. }
  destruct Hbp as [r Hbp]. revert Hres. repeat run_step. rewrite Hbp.
  repeat run_step. destruct r as [e|paths]; [discriminate|]. repeat run_step.
  rewrite run_chain_shape, publish_shape. cbn [trace result fst snd].
  destruct (final_exn (stage_chain E (make_args E g (output_dir_of g) data paths)
                         build rest)) as [e|] eqn:Hexn; [discriminate|].
  destruct (write_metadata E) as [e|lines]; [discriminate|].
  intros _. eexists _, _, _, lines.
  split; [reflexivity|]. split; [exact Hexn | reflexivity].
Qed.

Lemma lock_rename_core (E : env) (g : string) (server : bool) (w : fs) :
  let m := genome_analyzer E g server in
  (forall s d, ERename s d ∈ trace m -> result m = inr Finished)
  /\ (result m = inr Finished ->
      exists body,
        trace m = body ++ finale g
        /\ (forall s d, ERename s d ∉ body)
        /\ files (replay w (trace m)) !! lockfile_of g = None
        /\ is_Some (files (replay w (trace m)) !! logfile_of g)
        /\ log_handle (replay w (trace m)) = None)
  /\ (forall e, result m = inl e ->
        is_Some (files w !! lockfile_of g)
        \/ (forall c, lock_status E (lockfile_of g) <> Unopenable c) ->
        is_Some (files (replay w (trace m)) !! lockfile_of g)).
Proof.
  intros m. subst m.
  pose proof (genome_analyzer_gate E g server) as Hg. cbv zeta in Hg. rewrite Hg.
  clear Hg.
  pose proof (locked_run_shape E g) as Hshape. cbv zeta in Hshape.
  pose proof (lock_is_not_evidence g) as Hlp.
  assert (Htmp : String.eqb (lockfile_of g)
                   (tmp_of (path_join (output_dir_of g) "get-evidence.json")) = false).
  { rewrite String.eqb_sym. apply join_output_dir_ne;
      [reflexivity | reflexivity | discriminate]. }
  remember (path_join (output_dir_of g) "get-evidence.json") as p eqn:Hp.
  remember ((if server then [EServerClose] else [])
            ++ [EMkdir (output_dir_of g); EOpenAppend (lockfile_of g)])
    as gate eqn:Hgatedef.
  assert (Hgate : forall s d, ERename s d ∉ gate).
  { intros s d H. subst gate. destruct server; simpl in H;
      repeat (apply elem_of_cons in H as [H|H]; [discriminate H|]);
      inversion H. }
  destruct (lock_status E (lockfile_of g)) as [created| |];
    cbn [trace result fst snd].
  { (* the lock file cannot be opened *)
    split; [|split; [discriminate|]].
    - intros s d H. exfalso. destruct server, created; simpl in H;
        repeat (apply elem_of_cons in H as [H|H]; [discriminate H|]);
        inversion H.
    - intros e _ [H|H]; [|destruct (H created eq_refl)].
      destruct server, created; exact H. }
  { (* the lock is held elsewhere *)
    split; [|split; [discriminate | discriminate]].
    intros s d H. exfalso.
    apply elem_of_app in H as [H|H]; [exact (Hgate _ _ H)|].
    repeat (apply elem_of_cons in H as [H|H]; [discriminate H|]). inversion H. }
  destruct (after_gate g server w) as (Hlogs & Hsome & _).
  rewrite <- Hgatedef in Hlogs, Hsome.
  rewrite app_assoc.
  remember (gate ++ [EFlock (lockfile_of g) true; ETruncate (lockfile_of g);
                     ERedirect (lockfile_of g)]) as init eqn:Hinitdef.
  assert (Hinit : forall s d, ERename s d ∉ init).
  { intros s d H. subst init. apply elem_of_app in H as [H|H]; [exact (Hgate _ _ H)|].
    repeat (apply elem_of_cons in H as [H|H]; [discriminate H|]). inversion H. }
  remember (locked_run E g (output_dir_of g) (lockfile_of g) (logfile_of g))
    as m eqn:Hm.
  destruct Hshape as
    [(e & Hr & Hbody)
    |(a & build & rest & pre & _ & Hgetev & _ & Hbody & Hmd & Hcase)].
  - (* failure before the evidence report is moved *)
    rewrite Hr.
    assert (Hno : forall s d, ERename s d ∉ init ++ trace m).
    { intros s d H. apply elem_of_app in H as [H|H]; [exact (Hinit _ _ H)|].
      exact (body_events_no_rename p _ s d Hbody H). }
    split; [intros s d H; destruct (Hno _ _ H)|].
    split; [discriminate|]. intros e' _ _.
    rewrite replay_app.
    apply (body_events_replay _ p _ _ Hlp Hlogs Hbody). exact Hsome.
  - remember (pre ++ full_drain E a build rest) as body1 eqn:Hb1.
    destruct (body_events_replay _ p body1 _ Hlp Hlogs Hbody) as (Hlogs1 & _ & Hsome1).
    specialize (Hsome1 Hsome).
    set (w2 := replay (replay w init) (body1 ++ [EMove (tmp_of p) p])).
    assert (Hw2 : logs_to (lockfile_of g) w2 /\ is_Some (files w2 !! lockfile_of g)).
    { subst w2. rewrite replay_app. cbn [replay foldl apply_event]. split.
      - apply move_logs_to; assumption.
      - apply move_keeps; [|exact Hsome1].
        intros Heq. apply String.eqb_neq in Htmp. congruence. }
    destruct Hw2 as [Hlogs2 Hsome2].
    assert (Hno1 : forall s d, ERename s d ∉ init ++ body1 ++ [EMove (tmp_of p) p]).
    { intros s d H. apply elem_of_app in H as [H|H]; [exact (Hinit _ _ H)|].
      apply elem_of_app in H as [H|H];
        [exact (body_events_no_rename p _ s d Hbody H)|].
      apply elem_of_cons in H as [H|H]; [discriminate H | inversion H]. }
    destruct Hcase as [(e & Hr & Ht) | (lines & Hr & Ht)]; rewrite Hr, Ht.
    + (* the metadata report fails *)
      assert (Hno : forall s d,
                ERename s d ∉ init ++ body1 ++ [EMove (tmp_of p) p; EOpenWrite (metadata_out a)]).
      { intros s d H. apply elem_of_app in H as [H|H]; [exact (Hinit _ _ H)|].
        apply elem_of_app in H as [H|H];
          [exact (body_events_no_rename p _ s d Hbody H)|].
        repeat (apply elem_of_cons in H as [H|H]; [discriminate H|]). inversion H. }
      split; [intros s d H; destruct (Hno _ _ H)|].
      split; [discriminate|]. intros e' _ _.
      change (init ++ body1 ++ [EMove (tmp_of p) p; EOpenWrite (metadata_out a)])
        with (init ++ body1 ++ [EMove (tmp_of p) p] ++ [EOpenWrite (metadata_out a)]).
      rewrite replay_app, app_assoc, replay_app. fold w2.
      cbn [replay foldl apply_event]. unfold set_files. cbn [files].
      apply is_Some_insert_file. exact Hsome2.
    + (* the run finishes *)
      set (mdev := EOpenWrite (metadata_out a)
                   :: map (EWrite (metadata_out a)) lines ++ [EClose (metadata_out a)]).
      pose proof (metadata_events_body (metadata_out a) p lines Hmd) as Hmdev.
      fold mdev in Hmdev.
      destruct (body_events_replay _ p mdev w2 Hlp Hlogs2 Hmdev) as (Hlogs3 & _ & Hsome3).
      specialize (Hsome3 Hsome2).
      assert (Heq : init ++ body1 ++ EMove (tmp_of p) p :: mdev ++ finale g
                    = ((init ++ body1 ++ [EMove (tmp_of p) p]) ++ mdev) ++ finale g).
      { rewrite <- !app_assoc. reflexivity. }
      rewrite Heq.
      split; [intros s d _; reflexivity|].
      split; [|discriminate]. intros _.
      exists ((init ++ body1 ++ [EMove (tmp_of p) p]) ++ mdev).
      split; [reflexivity|]. split.
      { intros s d H. apply elem_of_app in H as [H|H]; [exact (Hno1 _ _ H)|].
        exact (body_events_no_rename p _ s d Hmdev H). }
      rewrite !(replay_app w). fold w2. apply finale_replay; assumption.
Qed.




(** ** JobRunner: publication of the artifacts *)

Lemma quiet_app (p : string) (w : fs) (es1 es2 : list event) :
  quiet_run p w es1 -> quiet_run p (replay w es1) es2 ->
  quiet_run p w (es1 ++ es2).
Proof.
  intros H1 H2 k. rewrite take_app, replay_app.
  destruct (decide (k <= length es1)) as [Hle|Hgt].
  - replace (k - length es1) with 0 by lia. rewrite take_0. apply H1.
  - rewrite (take_ge es1) by lia. rewrite H2.
    specialize (H1 (length es1)). rewrite firstn_all in H1. exact H1.
Qed.

Lemma quiet_full (p : string) (w : fs) (es : list event) :
  quiet_run p w es -> files (replay w es) !! p = files w !! p.
Proof. intros H. specialize (H (length es)). rewrite firstn_all in H. exact H. Qed.

Lemma gate_event_step (lock p : string) (w : fs) (e : event) :
  String.eqb lock p = false -> gate_event lock e = true ->
  files (apply_event w e) !! p = files w !! p.
Proof.
  intros Hlp%String.eqb_neq He.
  destruct e; simpl in He; try discriminate He; try reflexivity;
    apply String.eqb_eq in He; subst; cbn [apply_event files set_files].
  - destruct (files w !! lock); [reflexivity|].
    apply lookup_insert_ne. exact Hlp.
  - apply lookup_insert_ne. exact Hlp.
Qed.

Lemma gate_events_quiet (lock p : string) (es : list event) : forall w,
  String.eqb lock p = false ->
  Forall (fun e => gate_event lock e = true) es ->
  quiet_run p w es.
Proof.
  induction es as [|e es IH]; intros w Hlp Hes k.
  - rewrite take_nil. reflexivity.
  - destruct k as [|k]; [reflexivity|].
    inversion Hes as [|? ? He Hes']; subst.
    cbn [take firstn replay foldl]. fold (replay (apply_event w e) (take k es)).
    rewrite (IH (apply_event w e) Hlp Hes' k).
    apply gate_event_step with (lock := lock); assumption.
Qed.

Lemma body_events_quiet (lock p : string) (es : list event) (w : fs) :
  String.eqb lock p = false ->
  logs_to lock w ->
  Forall (fun e => body_event p e = true) es ->
  quiet_run p w es.
Proof.
  intros Hlp Hw Hes k.
  apply (body_events_replay lock p (take k es) w Hlp Hw).
  apply Forall_take. exact Hes.
Qed.

Lemma atomic_of_quiet (p : string) (w : fs) (es : list event) :
  quiet_run p w es -> atomic_publish w es p.
Proof. intros H k. left. apply H. Qed.

(** One event between two quiet stretches: before it an observer finds the
    old content, from it on the final one. *)
Lemma atomic_split (p : string) (w : fs) (A B : list event) (e : event) :
  quiet_run p w A ->
  quiet_run p (replay w (A ++ [e])) B ->
  atomic_publish w (A ++ e :: B) p.
Proof.
  intros HA HB k. unfold observed.
  replace (A ++ e :: B) with ((A ++ [e]) ++ B)
    by (rewrite <- app_assoc; reflexivity).
  destruct (decide (k <= length A)) as [Hle|Hgt].
  - left. rewrite <- app_assoc, take_app_le by exact Hle. apply HA.
  - right. rewrite take_app.
    rewrite (take_ge (A ++ [e])) by (rewrite length_app; simpl; lia).
    rewrite (replay_app w (A ++ [e])), HB.
    rewrite (replay_app w (A ++ [e])). symmetry. apply quiet_full. exact HB.
Qed.

Lemma gate_event_not_move (lock : string) (e : event) :
  gate_event lock e = true -> forall s d, e <> EMove s d.
Proof. destruct e; simpl; intros H; intros; discriminate. Qed.

Lemma lookup_single_move (A B : list event) (e : event) (k : nat) (s d : string) :
  (forall x, x ∈ A -> forall s' d', x <> EMove s' d') ->
  (forall x, x ∈ B -> forall s' d', x <> EMove s' d') ->
  (A ++ e :: B) !! k = Some (EMove s d) ->
  k = length A /\ e = EMove s d.
Proof.
  intros HA HB Hk. apply lookup_app_Some in Hk as [Hk | [Hle Hk]].
  - apply list_elem_of_lookup_2 in Hk. destruct (HA _ Hk s d eq_refl).
  - destruct (k - length A) as [|j] eqn:Hj.
    + simpl in Hk. injection Hk as ->. split; [lia | reflexivity].
    + simpl in Hk. apply list_elem_of_lookup_2 in Hk.
      destruct (HB _ Hk s d eq_refl).
Qed.

Lemma init_is_gate (g : string) (server : bool) :
  Forall (fun e => gate_event (lockfile_of g) e = true)
    (((if server then [EServerClose] else [])
      ++ [EMkdir (output_dir_of g); EOpenAppend (lockfile_of g)])
     ++ [EFlock (lockfile_of g) true; ETruncate (lockfile_of g);
         ERedirect (lockfile_of g)]).
Proof.
  destruct server; cbn [app]; repeat constructor;
    cbn [gate_event]; apply String.eqb_refl.
Qed.

(** C7 fails: while the chain is drained, the compressed output sits under
    its final name with part of its content. *)
Lemma artifacts_not_all_atomic :
  ~ all_artifacts_atomic demo_env "/data/u1/genotype.gff" false fresh_fs.
Proof.
  intros H.
  assert (Hin : "ns.gff.gz" ∈ artifact_names).
  { unfold artifact_names. apply elem_of_cons. right. apply elem_of_cons. left.
    reflexivity. }
  specialize (H "ns.gff.gz" Hin 18). unfold observed in H.
  vm_compute in H. destruct H as [H|H]; discriminate H.
Qed.

Lemma evidence_report_core
  (E : env) (g : string) (server : bool) (w : fs) :
  let tr := trace (genome_analyzer E g server) in
  let p := path_join (output_dir_of g) "get-evidence.json" in
  atomic_publish w tr p
  /\ forall k s d,
       tr !! k = Some (EMove s d) ->
       s = tmp_of p /\ d = p
       /\ exists a build rest pre,
            chain_input E g = Some (a, build, rest)
            /\ getev_out a = p
            /\ final_exn (stage_chain E a build rest) = None
            /\ take k tr = pre ++ full_drain E a build rest.
Proof.
  intros tr p. subst tr p.
  pose proof (genome_analyzer_gate E g server) as Hg. cbv zeta in Hg. rewrite Hg.
  clear Hg.
  pose proof (locked_run_shape E g) as Hshape. cbv zeta in Hshape.
  pose proof (lock_is_not_evidence g) as Hlp.
  pose proof (log_is_not_evidence g) as Hlogp.
  assert (Htmp : String.eqb (lockfile_of g)
                   (tmp_of (path_join (output_dir_of g) "get-evidence.json")) = false).
  { rewrite String.eqb_sym. apply join_output_dir_ne;
      [reflexivity | reflexivity | discriminate]. }
  pose proof (init_is_gate g server) as Hinit.
  destruct (after_gate g server w) as (Hlogs & _ & _).
  remember (path_join (output_dir_of g) "get-evidence.json") as p eqn:Hp.
  remember ((if server then [EServerClose] else [])
            ++ [EMkdir (output_dir_of g); EOpenAppend (lockfile_of g)])
    as gate eqn:Hgatedef.
  apply Forall_app in Hinit as Hgate. destruct Hgate as [Hgate _].
  destruct (lock_status E (lockfile_of g)) as [created| |];
    cbn [trace result fst snd].
  { (* the lock file cannot be opened *)
    split.
    - apply atomic_of_quiet.
      apply gate_events_quiet with (lock := lockfile_of g); [exact Hlp|].
      destruct server, created; repeat constructor.
    - intros k s d Hk. exfalso. apply list_elem_of_lookup_2 in Hk.
      destruct server, created; simpl in Hk;
        repeat (apply elem_of_cons in Hk as [Hk|Hk]; [discriminate Hk|]);
        inversion Hk. }
  { (* the lock is held elsewhere: the diagnostic is the last event *)
    split.
    - change (gate ++ [EFlock (lockfile_of g) false;
                       EPrint "Lockfile really is locked.  Quitting."])
        with (gate ++ [EFlock (lockfile_of g) false]
                   ++ [EPrint "Lockfile really is locked.  Quitting."]).
      rewrite app_assoc. apply atomic_split.
      + apply gate_events_quiet with (lock := lockfile_of g); [exact Hlp|].
        apply Forall_app. split; [exact Hgate | repeat constructor].
      + intros k. rewrite take_nil. reflexivity.
    - intros k s d Hk. exfalso. apply list_elem_of_lookup_2 in Hk.
      apply elem_of_app in Hk as [Hk|Hk].
      + rewrite Forall_forall in Hgate.
        exact (gate_event_not_move _ _ (Hgate _ Hk) s d eq_refl).
      + repeat (apply elem_of_cons in Hk as [Hk|Hk]; [discriminate Hk|]).
        inversion Hk. }
  rewrite app_assoc.
  remember (gate ++ [EFlock (lockfile_of g) true; ETruncate (lockfile_of g);
                     ERedirect (lockfile_of g)]) as init eqn:Hinitdef.
  assert (Hqinit : quiet_run p w init).
  { apply gate_events_quiet with (lock := lockfile_of g); assumption. }
  assert (Hninit : forall x, x ∈ init -> forall s d, x <> EMove s d).
  { intros x Hx. rewrite Forall_forall in Hinit.
    exact (gate_event_not_move _ _ (Hinit _ Hx)). }
  remember (locked_run E g (output_dir_of g) (lockfile_of g) (logfile_of g))
    as m eqn:Hm.
  destruct Hshape as
    [(e & Hr & Hbody)
    |(a & build & rest & pre & Hci & Hgetev & Hexn & Hbody & Hmd & Hcase)].
  - (* failure before the move *)
    split.
    + apply atomic_of_quiet, quiet_app; [exact Hqinit|].
      apply body_events_quiet with (lock := lockfile_of g); assumption.
    + intros k s d Hk. exfalso. apply list_elem_of_lookup_2 in Hk.
      apply elem_of_app in Hk as [Hk|Hk]; [exact (Hninit _ Hk s d eq_refl)|].
      rewrite Forall_forall in Hbody.
      exact (proj2 (body_event_not_rename p _ (Hbody _ Hk)) s d eq_refl).
  - remember (pre ++ full_drain E a build rest) as body1 eqn:Hb1.
    assert (HqA : quiet_run p w (init ++ body1)).
    { apply quiet_app; [exact Hqinit|].
      apply body_events_quiet with (lock := lockfile_of g); assumption. }
    assert (HnA : forall x, x ∈ init ++ body1 -> forall s d, x <> EMove s d).
    { intros x Hx. apply elem_of_app in Hx as [Hx|Hx]; [exact (Hninit _ Hx)|].
      rewrite Forall_forall in Hbody.
      exact (proj2 (body_event_not_rename p _ (Hbody _ Hx))). }
    destruct (body_events_replay _ p body1 _ Hlp Hlogs Hbody) as (Hlogs1 & _ & _).
    assert (Hlogs2 : logs_to (lockfile_of g)
                       (replay w ((init ++ body1) ++ [EMove (tmp_of p) p]))).
    { rewrite !replay_app. cbn [replay foldl apply_event].
      apply move_logs_to; assumption. }
    assert (Hmove : forall B k s d,
              (forall x, x ∈ B -> forall s' d', x <> EMove s' d') ->
              ((init ++ body1) ++ EMove (tmp_of p) p :: B) !! k = Some (EMove s d) ->
              s = tmp_of p /\ d = p
              /\ exists a0 build0 rest0 pre0,
                   chain_input E g = Some (a0, build0, rest0)
                   /\ getev_out a0 = p
                   /\ final_exn (stage_chain E a0 build0 rest0) = None
                   /\ take k ((init ++ body1) ++ EMove (tmp_of p) p :: B)
                      = pre0 ++ full_drain E a0 build0 rest0).
    { intros B k s d HB Hk.
      destruct (lookup_single_move _ _ _ _ _ _ HnA HB Hk) as [-> [= <- <-]].
      split; [reflexivity|]. split; [reflexivity|].
      exists a, build, rest, (init ++ pre).
      split; [exact Hci|]. split; [exact Hgetev|]. split; [exact Hexn|].
      rewrite take_app_length, Hb1, app_assoc. reflexivity. }
    destruct Hcase as [(e & Hr & Ht) | (lines & Hr & Ht)]; rewrite Ht;
      rewrite (app_assoc init).
    + (* the metadata report fails *)
      split.
      * apply atomic_split; [exact HqA|].
        apply body_events_quiet with (lock := lockfile_of g);
          [exact Hlp | exact Hlogs2 |].
        constructor; [|constructor]. simpl. rewrite Hmd. reflexivity.
      * intros k s d Hk. apply (Hmove _ k s d); [|exact Hk].
        intros x Hx. apply elem_of_cons in Hx as [->|Hx]; [discriminate|].
        inversion Hx.
    + (* the run finishes *)
      pose proof (metadata_events_body (metadata_out a) p lines Hmd) as Hmdev.
      split.
      * apply atomic_split; [exact HqA|].
        apply quiet_app.
        -- apply body_events_quiet with (lock := lockfile_of g); assumption.
        -- apply finale_quiet; [|exact Hlp|exact Hlogp].
           apply (body_events_replay _ p _ _ Hlp Hlogs2 Hmdev).
      * intros k s d Hk. apply (Hmove _ k s d); [|exact Hk].
        intros x Hx. apply elem_of_app in Hx as [Hx|Hx].
        -- rewrite Forall_forall in Hmdev.
           exact (proj2 (body_event_not_rename p _ (Hmdev _ Hx))).
        -- unfold finale in Hx.
           repeat (apply elem_of_cons in Hx as [->|Hx]; [discriminate|]).
           inversion Hx.
Qed.


(** C7, amended. The evidence report is the artifact that is published by
    rename.  The runner never writes under its final name: an observer
    finds there either what was there before the run or what is there after
    it.  Whenever the chain has been drained without exception, the runner
    moves the report from the temporary name the last stage wrote to into
    place, directly after the complete drain, and this is the only move of
    a run.  The compressed output and the metadata report are opened and
    written under their final names: the drain starts by opening the
    compressed output in the workspace, the metadata report is opened
    right after the move and its lines are written to it, and nothing is
    ever moved or renamed onto either of them (the only rename of a run is
    that of the lock file). *)
Theorem evidence_report_published_atomically
  (E : env) (g : string) (server : bool) (w : fs) :
  let tr := trace (genome_analyzer E g server) in
  let p := path_join (output_dir_of g) "get-evidence.json" in
  atomic_publish w tr p
  /\ (forall k s d,
       tr !! k = Some (EMove s d) ->
       s = tmp_of p /\ d = p
       /\ exists a build rest pre,
            chain_input E g = Some (a, build, rest)
            /\ getev_out a = p
            /\ final_exn (stage_chain E a build rest) = None
            /\ take k tr = pre ++ full_drain E a build rest)
  /\ (forall a build rest,
       lock_status E (lockfile_of g) = Free ->
       chain_input E g = Some (a, build, rest) ->
       final_exn (stage_chain E a build rest) = None ->
       nonsyn_out a = path_join (output_dir_of g) "ns.gff.gz"
       /\ metadata_out a = path_join (output_dir_of g) "metadata.json"
       /\ exists pre,
            tr = pre ++ full_drain E a build rest
                 ++ EMove (tmp_of p) p
                 :: EOpenWrite (metadata_out a)
                 :: match write_metadata E with
                    | inl _ => []
                    | inr lines =>
                        map (EWrite (metadata_out a)) lines
                        ++ [EClose (metadata_out a)] ++ finale g
                    end)
  /\ (forall s d, ERename s d ∈ tr -> s = lockfile_of g /\ d = logfile_of g).
Proof.
  intros tr p. subst tr p.
  destruct (evidence_report_core E g server w) as [Hatomic Hmove].
  split; [exact Hatomic|]. split; [exact Hmove|]. split.
  - intros a build rest Hfree Hci Hexn.
    destruct (drained_run_trace E g server a build rest Hfree Hci Hexn)
      as ((_ & Hns & Hgetev & Hmd) & Ht & _).
    split; [exact Hns|]. split; [exact Hmd|].
    rewrite Ht, Hgetev. eexists. reflexivity.
  - intros s d H.
    destruct (lock_rename_core E g server w) as (HA & HB & _).
    destruct (HB (HA s d H)) as (body & Hbody & Hno & _).
    rewrite Hbody in H. apply elem_of_app in H as [H|H]; [destruct (Hno s d H)|].
    unfold finale in H.
    apply elem_of_cons in H as [H|H]; [discriminate H|].
    apply elem_of_cons in H as [H|H]; [injection H as -> ->; split; reflexivity|].
    repeat (apply elem_of_cons in H as [H|H]; [discriminate H|]). inversion H.
Qed.

Lemma evidence_report_published_atomically_witness :
  exists pre post,
    trace (genome_analyzer demo_env "/data/u1/genotype.gff" false)
    = pre ++ EMove "/data/u1-out/get-evidence.json.tmp"
               "/data/u1-out/get-evidence.json"
          :: EOpenWrite "/data/u1-out/metadata.json" :: post.
Proof.
  destruct (evidence_report_published_atomically demo_env "/data/u1/genotype.gff"
              false fresh_fs) as (_ & _ & H & _).
  destruct (chain_input demo_env "/data/u1/genotype.gff") as [[[a b] r]|] eqn:Hci;
    [|vm_compute in Hci; discriminate Hci].
  destruct (H a b r eq_refl eq_refl eq_refl) as (_ & Hmd & pre & Ht).
  rewrite Hmd in Ht.
  eexists (pre ++ full_drain demo_env a b r), _.
  rewrite Ht, <- app_assoc. reflexivity.
Defined.

(** * Further properties of the code *)

(** ** FormatSniffer: edge behaviour *)

Lemma header_scan_only_comments (rest : list string) : forall line,
  Forall (fun l => is_comment l = true) (line :: rest) ->
  Forall (fun l => header_signature l = None) (line :: rest) ->
  header_scan line rest = inl ("Nothing but header?", UNKNOWN).
Proof.
  induction rest as [|l rest IH]; intros line Hc Hs;
    inversion Hc as [|? ? Hc1 Hc2]; inversion Hs as [|? ? Hs1 Hs2]; subst;
    rewrite header_scan_miss by assumption; [reflexivity|].
  apply IH; assumption.
Qed.

(** X1. A stream made of comment lines only, none of which carries a
    header signature, is UNKNOWN. *)
Theorem comment_only_stream_is_unknown (f_in : list string) :
  Forall (fun l => is_comment l = true) f_in ->
  Forall (fun l => header_signature l = None) f_in ->
  detect_format f_in = UNKNOWN.
Proof.
  intros Hc Hs. unfold detect_format, detect_format_verdict.
  destruct f_in as [|line rest]; [reflexivity|].
  rewrite header_scan_only_comments by assumption. reflexivity.
Qed.

Lemma comment_only_stream_is_unknown_witness :
  detect_format [with_nl "# a comment"; with_nl "##genome-build hg19"] = UNKNOWN.
Proof.
  apply comment_only_stream_is_unknown;
    repeat (apply Forall_cons; split; [reflexivity|]); apply Forall_nil_2.
Defined.

Lemma body_scan_ignores_extra (n : nat) (line : string) (rest extra : list string) :
  n <= S (length rest) ->
  snd (body_scan n line (rest ++ extra)) = snd (body_scan n line rest).
Proof.
  intros Hn. rewrite !body_scan_spec.
  destruct n as [|n]; [reflexivity|].
  cbn [firstn]. rewrite take_app_le by lia. reflexivity.
Qed.

Lemma header_scan_data (d : string) (rest : list string) :
  is_comment d = false -> header_scan d rest = inr (d, rest).
Proof. intros H. destruct rest; simpl; rewrite H; reflexivity. Qed.

(** The header loop over a comment block that is followed by a data line
    [d]: the outcome does not depend on what follows [d]. *)
Lemma header_scan_through (d : string) (hdr : list string) : forall line,
  is_comment line = true ->
  Forall (fun l => is_comment l = true) hdr ->
  is_comment d = false ->
  (exists f, forall rest, exists msg,
      header_scan line (hdr ++ d :: rest) = inl (msg, f))
  \/ (forall rest, header_scan line (hdr ++ d :: rest) = inr (d, rest)).
Proof.
  induction hdr as [|h hdr IH]; intros line Hl Hc Hd.
  - destruct (header_signature line) as [f|] eqn:Hs.
    + left. exists f. intros rest. apply header_scan_hit; assumption.
    + right. intros rest. rewrite header_scan_miss by assumption.
      cbn [app]. apply header_scan_data. exact Hd.
  - inversion Hc as [|? ? Hh Hc']; subst.
    destruct (header_signature line) as [f|] eqn:Hs.
    + left. exists f. intros rest. apply header_scan_hit; assumption.
    + destruct (IH h Hh Hc' Hd) as [[f Hf] | Hr].
      * left. exists f. intros rest.
        rewrite header_scan_miss by assumption. apply Hf.
      * right. intros rest. rewrite header_scan_miss by assumption. apply Hr.
Qed.

(** X2. The sniffer looks at the comment block and at no more than 100
    lines after it: whatever follows the 100th of these lines has no
    influence on the format it returns. *)
Theorem sniffing_stops_after_100_body_lines
  (hdr body extra : list string) (d : string) :
  Forall (fun l => is_comment l = true) hdr ->
  is_comment d = false ->
  100 <= S (length body) ->
  detect_format (hdr ++ d :: body ++ extra) = detect_format (hdr ++ d :: body).
Proof.
  intros Hc Hd Hlen. unfold detect_format, detect_format_verdict.
  destruct hdr as [|h hdr].
  - cbn [app]. rewrite !header_scan_data by exact Hd.
    apply body_scan_ignores_extra. exact Hlen.
  - inversion Hc as [|? ? Hh Hc']; subst. cbn [app].
    destruct (header_scan_through d hdr h Hh Hc' Hd) as [[f Hf] | Hr].
    + destruct (Hf (body ++ extra)) as [m1 ->]. destruct (Hf body) as [m2 ->].
      reflexivity.
    + rewrite !Hr. apply body_scan_ignores_extra. exact Hlen.
Qed.

Lemma sniffing_stops_after_100_body_lines_witness :
  detect_format
    ([with_nl "# notes"] ++ with_nl "x" :: repeat (with_nl "y") 99
       ++ [row ["chr1"; "src"; "SNP"; "5"; "5"; "."; "+"; "."; "alleles A"]])
  = detect_format ([with_nl "# notes"] ++ with_nl "x" :: repeat (with_nl "y") 99).
Proof.
  apply sniffing_stops_after_100_body_lines.
  - apply Forall_cons; split; [reflexivity | apply Forall_nil_2].
  - reflexivity.
  - rewrite repeat_length. lia.
Defined.

Lemma split_on_with_nl (s : string) :
  exists pre f, split_on tab (with_nl s) = pre ++ [with_nl f].
Proof.
  induction s as [|c s (pre & f & IH)].
  - exists [], EmptyString. reflexivity.
  - unfold with_nl in *. rewrite append_cons. cbn [split_on].
    destruct (Ascii.eqb c tab).
    + exists (EmptyString :: pre), f. rewrite IH. reflexivity.
    + rewrite IH. destruct pre as [|h t].
      * exists [], (String c f). reflexivity.
      * exists (String c h :: t), f. reflexivity.
Qed.

Lemma endswith_append (p x : string) : endswith p (x +:+ p) = true.
Proof.
  induction x as [|c x IH].
  - change (EmptyString +:+ p) with p.
    destruct p; cbn [endswith]; [reflexivity|].
    rewrite String.eqb_refl. reflexivity.
  - rewrite append_cons. cbn [endswith]. rewrite IH. apply orb_true_r.
Qed.

Lemma with_nl_differs (f k : string) :
  ends_nl k = false -> String.eqb (with_nl f) k = false.
Proof.
  intros Hk. apply String.eqb_neq. intros <-.
  unfold ends_nl, with_nl in Hk. rewrite endswith_append in Hk. discriminate Hk.
Qed.

(** X3. A line of exactly seven tab-separated columns that still carries
    its newline is neither CGIVAR-like nor GFF-like: the seventh column is
    compared with its newline attached.  Such a record is recognized only
    when another column follows. *)
Theorem seven_column_line_has_no_call_shape (s : string) :
  length (split_on tab (with_nl s)) = 7 ->
  is_cgi_like (split_on tab (with_nl s)) = false
  /\ is_gff_like (split_on tab (with_nl s)) = false.
Proof.
  intros Hlen. destruct (split_on_with_nl s) as (pre & f & Hsplit).
  rewrite Hsplit in *. rewrite length_app in Hlen. cbn [length] in Hlen.
  assert (H6 : field 6 (pre ++ [with_nl f]) = with_nl f).
  { unfold field. rewrite app_nth2 by lia.
    replace (6 - length pre) with 0 by lia. reflexivity. }
  unfold is_cgi_like, is_gff_like. rewrite H6.
  rewrite !with_nl_differs by reflexivity.
  split; [rewrite andb_false_r; reflexivity | apply andb_false_r].
Qed.

Lemma seven_column_line_has_no_call_shape_witness :
  is_gff_like (split_on tab (with_nl
     (String.concat (String tab EmptyString)
        ["chr1"; "src"; "SNP"; "5"; "5"; "."; "+"]))) = false.
Proof.
  apply (seven_column_line_has_no_call_shape
           (String.concat (String tab EmptyString)
              ["chr1"; "src"; "SNP"; "5"; "5"; "."; "+"])).
  reflexivity.
Defined.

(** X4. No line satisfies two of the three shape predicates: they disagree
    on the fourth column, so the order in which they are tried never
    decides the result. *)
Theorem shape_predicates_disjoint (data : list string) :
  is_cgi_like data && is_gff_like data = false
  /\ is_cgi_like data && is_23andme_like data = false
  /\ is_gff_like data && is_23andme_like data = false.
Proof.
  destruct (shapes_exclusive data) as [H1 H2].
  destruct (is_cgi_like data) eqn:Hc.
  - destruct (H1 eq_refl) as [-> ->]. repeat split; reflexivity.
  - destruct (is_gff_like data) eqn:Hg.
    + rewrite (H2 eq_refl). repeat split; reflexivity.
    + repeat split; reflexivity.
Qed.

(** ** SourceNormalizer: what is yielded and what is raised *)

Lemma declared_build_valid (line b : string) :
  declared_build line = inr b -> valid_build b.
Proof.
  unfold declared_build, valid_build.
  destruct (length (split_ws line) <? 2)%nat; [discriminate|].
  destruct (str_in _ b36_list); [intros [= <-]; left; reflexivity|].
  destruct (str_in _ b37_list); [intros [= <-]; right; reflexivity|].
  discriminate.
Qed.

Lemma declared_build_error (line : string) (e : exn) :
  declared_build line = inl e -> build_error e.
Proof.
  unfold declared_build, build_error.
  destruct (length (split_ws line) <? 2)%nat; [intros [= <-]; left; reflexivity|].
  destruct (str_in _ b36_list); [discriminate|].
  destruct (str_in _ b37_list); [discriminate|].
  intros [= <-]. right. reflexivity.
Qed.

(** One iteration keeps the build valid and the lines bound for the sort
    process newline-terminated images of input lines; it can only fail in
    the header, with one of the two build errors. *)
Lemma loop_body_invariant (st : loop_state) (line : string) :
  valid_build (genome_build st) ->
  Forall (fun l => exists x, l = sort_line x) (sort_stdin st) ->
  match loop_body st line with
  | inl e => build_error e /\ header_done st = false
  | inr st' =>
      valid_build (genome_build st')
      /\ Forall (fun l => exists x, l = sort_line x) (sort_stdin st')
      /\ (header_done st = true -> header_done st' = true)
  end.
Proof.
  intros Hv Hs. unfold loop_body.
  destruct (header_done st) eqn:Hd; cbn [negb].
  - cbn [genome_build sort_stdin header_done]. split; [exact Hv|]. split; [|auto].
    apply Forall_app. split; [exact Hs|].
    constructor; [|constructor]. eexists. reflexivity.
  - destruct (is_comment line).
    + destruct (startswith "##genome-build" line).
      * destruct (declared_build line) as [e|b] eqn:Hb.
        -- split; [exact (declared_build_error _ _ Hb) | reflexivity].
        -- cbn [genome_build sort_stdin header_done].
           split; [exact (declared_build_valid _ _ Hb)|]. split; [exact Hs|].
           discriminate.
      * cbn [genome_build sort_stdin header_done]. split; [exact Hv|].
        split; [exact Hs | discriminate].
    + cbn [genome_build sort_stdin header_done]. split; [exact Hv|].
      split; [exact Hs | discriminate].
Qed.

Lemma header_loop_invariant (lines : list string) : forall st,
  valid_build (genome_build st) ->
  Forall (fun l => exists x, l = sort_line x) (sort_stdin st) ->
  valid_build (genome_build (fst (header_loop st lines)))
  /\ Forall (fun l => exists x, l = sort_line x)
       (sort_stdin (fst (header_loop st lines)))
  /\ (forall e, snd (header_loop st lines) = Some e -> build_error e).
Proof.
  induction lines as [|l lines IH]; intros st Hv Hs.
  - simpl. split; [exact Hv|]. split; [exact Hs | discriminate].
  - cbn [header_loop]. pose proof (loop_body_invariant st l Hv Hs) as H.
    destruct (loop_body st l) as [e|st'].
    + simpl. split; [exact Hv|]. split; [exact Hs|].
      intros e' [= <-]. exact (proj1 H).
    + destruct H as (Hv' & Hs' & _). apply IH; assumption.
Qed.

(** An exception leaves the loop in the header: nothing has been written
    to the sort process. *)
Lemma header_loop_error_in_header (lines : list string) : forall st e,
  snd (header_loop st lines) = Some e ->
  sort_stdin (fst (header_loop st lines)) = sort_stdin st.
Proof.
  induction lines as [|l lines IH]; intros st e He; [reflexivity|].
  destruct (header_done st) eqn:Hd.
  { rewrite header_loop_data in He by exact Hd. discriminate He. }
  cbn [header_loop] in *. unfold loop_body in *. rewrite Hd in *. cbn [negb] in *.
  destruct (is_comment l).
  - destruct (startswith "##genome-build" l).
    + destruct (declared_build l) as [e'|b]; [reflexivity|].
      rewrite (IH _ e He). reflexivity.
    + rewrite (IH _ e He). reflexivity.
  - rewrite header_loop_data in He by reflexivity. discriminate He.
Qed.

(** Comment lines are collected in order while the loop stays in the
    header. *)
Lemma header_loop_collects (hdr : list string) : forall st,
  header_done st = false ->
  Forall (fun l => is_comment l = true) hdr ->
  snd (header_loop st hdr) = None ->
  header_done (fst (header_loop st hdr)) = false
  /\ header (fst (header_loop st hdr)) = header st ++ hdr
  /\ sort_stdin (fst (header_loop st hdr)) = sort_stdin st.
Proof.
  induction hdr as [|l hdr IH]; intros st Hd Hc Hn.
  - simpl. rewrite app_nil_r. tauto.
  - inversion Hc as [|? ? Hl Hc']; subst.
    cbn [header_loop] in *. unfold loop_body in *. rewrite Hd, Hl in *.
    cbn [negb] in *.
    destruct (startswith "##genome-build" l).
    + destruct (declared_build l) as [e|b]; [discriminate Hn|].
      edestruct IH as (H1 & H2 & H3); [| exact Hc' | exact Hn |]; [reflexivity|].
      rewrite H1, H2, H3. cbn [header sort_stdin].
      rewrite <- app_assoc. tauto.
    + edestruct IH as (H1 & H2 & H3); [| exact Hc' | exact Hn |]; [reflexivity|].
      rewrite H1, H2, H3. cbn [header sort_stdin].
      rewrite <- app_assoc. tauto.
Qed.

(** The whole trace of [process_source]. *)
Lemma process_source_trace (E : env) (g : string) :
  let cmd := cat_command g in
  let v := detect_format_verdict (popen E cmd) in
  trace (process_source E g) =
  [EShell cmd; EPrint (fst v); EShell cmd]
  ++ match snd v with
     | GFF => []
     | CGIVAR => [EConvert CGIVAR]
     | F23ANDME => [EConvert F23ANDME]
     | UNKNOWN => [EPrint "ERROR: genome file format not recognized"]
     end
  ++ [ESpawnSort sort_cmd]
  ++ match gff_input_of E g with
     | None => []
     | Some lines =>
         map ESortWrite (sort_stdin (fst (header_loop loop_init lines)))
         ++ match snd (header_loop loop_init lines) with
            | Some _ => []
            | None => [ESortClose]
            end
     end.
Proof.
  intros cmd v. subst cmd v. unfold gff_input_of, process_source, detect_format.
  destruct (snd (detect_format_verdict (popen E (cat_command g))));
    simpl; try reflexivity;
    match goal with
    | |- context [header_loop loop_init ?l] =>
        destruct (header_loop loop_init l) as [st [e|]]
    end; simpl; rewrite ?app_nil_r; reflexivity.
Qed.

Lemma gff_input_none (E : env) (g : string) :
  gff_input_of E g = None ->
  detect_format (popen E (cat_command g)) = UNKNOWN
  /\ result (process_source E g) = inl (UnboundLocalError "gff_input").
Proof.
  unfold gff_input_of, process_source, detect_format.
  destruct (snd (detect_format_verdict (popen E (cat_command g))));
    simpl; try discriminate.
  intros _. split; reflexivity.
Qed.

(** X5. What a successful [process_source] yields: one of the two build
    values, then the leading comment block in its order, then the output of
    the sort process, every line without its trailing newlines.  The sort
    process is given the lines that follow the first non-comment line. *)
Theorem process_source_output (E : env) (g : string) (lines ys : list string) :
  gff_input_of E g = Some lines ->
  result (process_source E g) = inr ys ->
  exists b,
    valid_build b
    /\ ys = b :: map rstrip_nl (leading_comments lines)
            ++ map rstrip_nl
                 (unix_sort E (map sort_line (tail (after_comments lines)))).
Proof.
  intros Hin Hres. rewrite (process_source_result E g _ Hin) in Hres.
  assert (Hloop : header_loop loop_init lines =
                  header_loop loop_init (leading_comments lines ++ after_comments lines)).
  { f_equal. apply comments_split. }
  destruct (header_loop_invariant lines loop_init) as (Hv & _ & _);
    [left; reflexivity | constructor |].
  rewrite Hloop in Hres, Hv. clear Hloop. rewrite header_loop_app in Hres, Hv.
  pose proof (header_loop_collects (leading_comments lines) loop_init eq_refl
                (leading_comments_all lines)) as Hcol.
  destruct (header_loop loop_init (leading_comments lines)) as [st1 [e|]];
    [discriminate Hres|].
  destruct (Hcol eq_refl) as (Hd1 & Hh1 & Hs1). cbn [fst] in Hd1, Hh1, Hs1.
  pose proof (after_comments_head lines) as Hd.
  destruct (after_comments lines) as [|d rest].
  - cbn [header_loop fst] in Hres, Hv. injection Hres as <-.
    exists (genome_build st1). split; [exact Hv|].
    rewrite Hh1, Hs1. reflexivity.
  - rewrite header_loop_first_data in Hres, Hv by assumption.
    cbn [fst genome_build header sort_stdin] in Hres, Hv. injection Hres as <-.
    exists (genome_build st1). split; [exact Hv|].
    rewrite Hh1, Hs1. reflexivity.
Qed.

Lemma process_source_output_witness :
  exists b,
    valid_build b
    /\ ["b37"; "##genome-build hg19";
        rstrip_nl (row ["chr1"; "src"; "SNP"; "7"; "7"; "."; "+"; "."; "alleles G"])]
       = b :: map rstrip_nl (leading_comments minimal_gff)
         ++ map rstrip_nl
              (unix_sort demo_env (map sort_line (tail (after_comments minimal_gff)))).
Proof.
  apply (process_source_output demo_env "/data/u4/genotype.gff" minimal_gff);
    vm_compute; reflexivity.
Defined.

Lemma process_source_yields_input (E : env) (g : string) (ys : list string) :
  result (process_source E g) = inr ys -> exists lines, gff_input_of E g = Some lines.
Proof.
  intros Hres. destruct (gff_input_of E g) as [lines|] eqn:Hin; [eauto|].
  destruct (gff_input_none E g Hin) as [_ H]. congruence.
Qed.

(** X6. The build [process_source] yields first is always b36 or b37, so
    the runner finds the reference files of that build: its branch for an
    invalid build is never taken. *)
Theorem yielded_build_has_reference_data
  (E : env) (g data b : string) (rest : list string) :
  result (process_source E g) = inr (b :: rest) ->
  valid_build b /\ exists paths, build_paths E data b = ([], inr paths).
Proof.
  intros Hres. destruct (process_source_yields_input E g _ Hres) as [lines Hin].
  destruct (process_source_output E g lines _ Hin Hres) as (b' & Hv & [= -> _]).
  split; [exact Hv|]. unfold build_paths.
  destruct Hv as [-> | ->]; eexists; reflexivity.
Qed.

Lemma yielded_build_has_reference_data_witness :
  valid_build "b37"
  /\ exists paths, build_paths demo_env "/ref" "b37" = ([], inr paths).
Proof.
  apply (yielded_build_has_reference_data demo_env "/data/u4/genotype.gff" "/ref"
           "b37"
           ["##genome-build hg19";
            rstrip_nl (row ["chr1"; "src"; "SNP"; "7"; "7"; "."; "+"; ".";
                            "alleles G"])]).
  vm_compute. reflexivity.
Defined.

(** X7. [process_source] raises one of three exceptions: the unbound
    [gff_input] of an unrecognized format, or one of the two build errors.
    Whenever it raises, no line has been written to the sort process and
    its input has not been closed. *)
Theorem process_source_raises_before_sorting (E : env) (g : string) (e : exn) :
  result (process_source E g) = inl e ->
  (e = UnboundLocalError "gff_input" \/ build_error e)
  /\ (forall l, ESortWrite l ∉ trace (process_source E g))
  /\ ESortClose ∉ trace (process_source E g).
Proof.
  intros Hres. pose proof (process_source_trace E g) as Ht. cbv zeta in Ht.
  assert (Htail : match gff_input_of E g with
                  | None => e = UnboundLocalError "gff_input"
                  | Some lines =>
                      build_error e
                      /\ sort_stdin (fst (header_loop loop_init lines)) = []
                      /\ exists e', snd (header_loop loop_init lines) = Some e'
                  end).
  { destruct (gff_input_of E g) as [lines|] eqn:Hin.
    - rewrite (process_source_result E g _ Hin) in Hres.
      destruct (header_loop_invariant lines loop_init) as (_ & _ & Herr);
        [left; reflexivity | constructor |].
      pose proof (header_loop_error_in_header lines loop_init) as Hs.
      destruct (header_loop loop_init lines) as [st [e'|]]; [|discriminate Hres].
      injection Hres as <-. split; [exact (Herr _ eq_refl)|].
      split; [exact (Hs _ eq_refl) | eauto].
    - destruct (gff_input_none E g Hin) as [_ H]. congruence. }
  assert (Hev : forall x, x ∈ trace (process_source E g) ->
                  (forall l, x <> ESortWrite l) /\ x <> ESortClose).
  { intros x Hx. rewrite Ht in Hx.
    assert (Hfront : forall y,
              y ∈ [EShell (cat_command g);
                   EPrint (fst (detect_format_verdict (popen E (cat_command g))));
                   EShell (cat_command g)] ->
              (forall l, y <> ESortWrite l) /\ y <> ESortClose).
    { intros y Hy.
      repeat (apply elem_of_cons in Hy as [->|Hy];
              [split; [intros l|]; discriminate|]).
      inversion Hy. }
    apply elem_of_app in Hx as [Hx|Hx]; [exact (Hfront _ Hx)|].
    apply elem_of_app in Hx as [Hx|Hx].
    { destruct (snd (detect_format_verdict (popen E (cat_command g))));
        try (inversion Hx; fail);
        (apply elem_of_cons in Hx as [->|Hx];
         [split; [intros l|]; discriminate | inversion Hx]). }
    apply elem_of_cons in Hx as [->|Hx]; [split; [intros l|]; discriminate|].
    destruct (gff_input_of E g) as [lines|]; [|inversion Hx].
    destruct Htail as (_ & Hs & e' & He'). rewrite Hs, He' in Hx. inversion Hx. }
  split.
  - destruct (gff_input_of E g); [right; exact (proj1 Htail) | left; exact Htail].
  - split.
    + intros l Hl. exact (proj1 (Hev _ Hl) l eq_refl).
    + intros Hc. exact (proj2 (Hev _ Hc) eq_refl).
Qed.

Lemma process_source_raises_before_sorting_witness :
  UnboundLocalError "gff_input" = UnboundLocalError "gff_input"
  \/ build_error (UnboundLocalError "gff_input").
Proof.
  apply (process_source_raises_before_sorting demo_env "/data/u3/notes.txt"
           (UnboundLocalError "gff_input")).
  reflexivity.
Defined.

Lemma rstrip_nl_no_newline (s : string) : ends_nl (rstrip_nl s) = false.
Proof.
  unfold ends_nl, rstrip_nl. induction s as [|c s IH]; [reflexivity|].
  cbn [rstrip_char].
  destruct (Ascii.eqb c nl && String.eqb (rstrip_char nl s) EmptyString) eqn:Hb;
    [reflexivity|].
  cbn [endswith]. rewrite IH, orb_false_r.
  destruct (String.eqb (String nl EmptyString) (String c (rstrip_char nl s))) eqn:Heq;
    [|reflexivity].
  apply String.eqb_eq in Heq. injection Heq as Hc Hr.
  rewrite <- Hc, <- Hr in Hb. discriminate Hb.
Qed.

(** X8. No value [process_source] yields ends with a newline. *)
Theorem yielded_lines_have_no_newline (E : env) (g : string) (ys : list string) :
  result (process_source E g) = inr ys ->
  Forall (fun y => ends_nl y = false) ys.
Proof.
  intros Hres. destruct (process_source_yields_input E g _ Hres) as [lines Hin].
  destruct (process_source_output E g lines _ Hin Hres) as (b & Hv & ->).
  constructor.
  - destruct Hv as [-> | ->]; reflexivity.
  - apply Forall_app. split; apply Forall_forall; intros y Hy;
      apply list_elem_of_fmap in Hy as (x & -> & _); apply rstrip_nl_no_newline.
Qed.

Lemma yielded_lines_have_no_newline_witness :
  Forall (fun y => ends_nl y = false)
    ["b37"; "##genome-build hg19";
     rstrip_nl (row ["chr1"; "src"; "SNP"; "7"; "7"; "."; "+"; "."; "alleles G"])].
Proof.
  apply (yielded_lines_have_no_newline demo_env "/data/u4/genotype.gff").
  vm_compute. reflexivity.
Defined.



Lemma bz2_suffix_selects_bzcat_witness :
  cat_command "/data/u1/genome.gz.bz2" = "bzcat " +:+ "/data/u1/genome.gz.bz2".
Proof. apply bz2_suffix_selects_bzcat. reflexivity. Defined.

Lemma gz_suffix_selects_zcat_witness :
  cat_command "/data/u1/genome.gff.gz" = "zcat " +:+ "/data/u1/genome.gff.gz".
Proof. apply gz_suffix_selects_zcat; reflexivity. Defined.

(** X12. The loop of lines 135-152 iterates over the stream that belongs to
    the detected format: the raw input for GFF, the output of
    [cgivar_to_gff.convert] for CGIVAR, the output of
    [gff_from_23andme.convert] for 23ANDME; what [process_source] yields or
    raises is what the loop makes of exactly that stream, and for an
    unrecognized format it is the unbound [gff_input]. *)
Theorem converter_matches_detected_format (E : env) (g : string) :
  result (process_source E g) =
  match converted E (detect_format (popen E (cat_command g)))
          (popen E (cat_command g)) with
  | None => inl (UnboundLocalError "gff_input")
  | Some lines => yields_of E lines
  end.
Proof.
  unfold converted, yields_of, process_source, detect_format.
  destruct (snd (detect_format_verdict (popen E (cat_command g))));
    simpl; try reflexivity;
    match goal with
    | |- context [header_loop loop_init ?l] =>
        destruct (header_loop loop_init l) as [st [e|]]; reflexivity
    end.
Qed.

(** ** JobRunner: the workspace *)

Lemma startswith_slash (c : ascii) (s : string) :
  startswith "/" (String c s) = Ascii.eqb c "/".
Proof.
  unfold startswith. cbn [String.prefix].
  destruct (ascii_dec "/" c) as [<-|Hne].
  - destruct s; reflexivity.
  - symmetry. apply Ascii.eqb_neq. congruence.
Qed.

Lemma dirname_head_no_slash (g : string) :
  contains "/" g = false -> dirname_head g = EmptyString.
Proof.
  induction g as [|c g IH]; [reflexivity|].
  cbn [contains dirname_head]. rewrite startswith_slash.
  intros [Hc Hg]%orb_false_iff. rewrite Hg, Hc. reflexivity.
Qed.

(** X13. An input named without any directory part has the workspace
    [-out] in the current directory, whatever its name: all such inputs
    share one workspace and one lock. *)
Theorem bare_name_workspace (g : string) :
  contains "/" g = false ->
  output_dir_of g = "-out" /\ lockfile_of g = "-out/lock".
Proof.
  intros H. unfold lockfile_of, output_dir_of, dirname.
  rewrite (dirname_head_no_slash g H). split; reflexivity.
Qed.

Lemma bare_name_workspace_witness :
  output_dir_of "genotype.gff" = "-out" /\ lockfile_of "genotype.gff" = "-out/lock".
Proof. apply bare_name_workspace. reflexivity. Defined.

Lemma contains_slash_append (d f : string) :
  contains "/" (d +:+ "/" +:+ f) = true.
Proof.
  induction d as [|c d IH].
  - change (EmptyString +:+ "/" +:+ f) with (String "/" f).
    cbn [contains]. rewrite startswith_slash. reflexivity.
  - rewrite append_cons. cbn [contains]. rewrite IH. apply orb_true_r.
Qed.

Lemma dirname_head_append (d f : string) :
  contains "/" f = false ->
  dirname_head (d +:+ "/" +:+ f) = d +:+ "/".
Proof.
  intros Hf. induction d as [|c d IH].
  - change (EmptyString +:+ "/" +:+ f) with (String "/" f).
    cbn [dirname_head]. rewrite Hf. reflexivity.
  - rewrite (append_cons c d ("/" +:+ f)), (append_cons c d "/").
    cbn [dirname_head]. rewrite contains_slash_append, IH. reflexivity.
Qed.

Lemma rstrip_char_snoc (ch : ascii) (d : string) :
  rstrip_char ch (d +:+ String ch EmptyString) = rstrip_char ch d.
Proof.
  induction d as [|c d IH].
  - change (EmptyString +:+ String ch EmptyString) with (String ch EmptyString).
    cbn [rstrip_char]. rewrite Ascii.eqb_refl. reflexivity.
  - rewrite append_cons. cbn [rstrip_char]. rewrite IH. reflexivity.
Qed.

Lemma rstrip_char_id (d : string) :
  endswith "/" d = false -> rstrip_char "/" d = d.
Proof.
  induction d as [|c d IH]; [reflexivity|].
  cbn [endswith rstrip_char]. intros [Hc Hd]%orb_false_iff.
  rewrite (IH Hd).
  destruct (Ascii.eqb c "/" && String.eqb d EmptyString) eqn:Hb; [|reflexivity].
  apply andb_prop in Hb as [Hc1%Ascii.eqb_eq Hd1%String.eqb_eq]. subst.
  discriminate Hc.
Qed.

(** X14. For an input [d/f] where [d] is a non-empty directory path that
    does not end in a slash, the workspace is the sibling [d-out] and the
    lock is [d-out/lock], whatever the file name [f]. *)
Theorem workspace_is_sibling_directory (d f : string) :
  d <> EmptyString ->
  endswith "/" d = false ->
  contains "/" f = false ->
  output_dir_of (d +:+ "/" +:+ f) = d +:+ "-out"
  /\ lockfile_of (d +:+ "/" +:+ f) = d +:+ "-out/lock".
Proof.
  intros Hne Hd Hf.
  assert (Hout : output_dir_of (d +:+ "/" +:+ f) = d +:+ "-out").
  { unfold output_dir_of, dirname. rewrite (dirname_head_append d f Hf).
    rewrite rstrip_char_snoc, (rstrip_char_id d Hd).
    destruct d; [congruence | reflexivity]. }
  split; [exact Hout|].
  unfold lockfile_of. rewrite join_output_dir by reflexivity.
  rewrite Hout, append_assoc. reflexivity.
Qed.

Lemma workspace_is_sibling_directory_witness :
  output_dir_of ("/data/u1" +:+ "/" +:+ "genotype.gff") = "/data/u1" +:+ "-out"
  /\ lockfile_of ("/data/u1" +:+ "/" +:+ "genotype.gff")
     = "/data/u1" +:+ "-out/lock".
Proof.
  apply workspace_is_sibling_directory; [discriminate | reflexivity | reflexivity].
Defined.

(** X15. The lock, the log and the artifacts of a job, the temporary
    evidence file included, are pairwise different files directly inside
    the workspace directory. *)
Theorem workspace_paths_distinct (g : string) :
  NoDup (map (path_join (output_dir_of g)) workspace_names)
  /\ Forall (fun n => path_join (output_dir_of g) n = output_dir_of g +:+ "/" +:+ n)
       workspace_names
  /\ tmp_of (path_join (output_dir_of g) "get-evidence.json")
     = path_join (output_dir_of g) "get-evidence.json.tmp".
Proof.
  assert (Hall : Forall (fun n => path_join (output_dir_of g) n
                                  = output_dir_of g +:+ "/" +:+ n) workspace_names).
  { unfold workspace_names.
    repeat (apply Forall_cons; split; [apply join_output_dir; reflexivity|]).
    apply Forall_nil_2. }
  split; [|split; [exact Hall|]].
  - unfold workspace_names. cbn [map].
    rewrite !join_output_dir by reflexivity.
    repeat (apply NoDup_cons_2;
            [intros H;
             repeat (apply elem_of_cons in H as [H|H];
                     [apply append_cancel_l in H; vm_compute in H; discriminate H|]);
             inversion H|]).
    apply NoDup_nil_2.
  - unfold tmp_of. rewrite !join_output_dir by reflexivity.
    rewrite !append_assoc. reflexivity.
Qed.

(** ** JobRunner: order and content *)

(** X16. Without [DATA] in the environment a run that got the lock raises
    an [AttributeError] right after redirecting its output: it has logged
    nothing and has not read the input. *)
Theorem missing_DATA_aborts_before_reading
  (E : env) (g : string) (server : bool) :
  getenv_DATA E = None ->
  lock_status E (lockfile_of g) = Free ->
  let m := genome_analyzer E g server in
  result m = inl (AttributeError "'NoneType' object has no attribute 'endswith'")
  /\ trace m = ((if server then [EServerClose] else [])
                ++ [EMkdir (output_dir_of g); EOpenAppend (lockfile_of g)])
               ++ [EFlock (lockfile_of g) true; ETruncate (lockfile_of g);
                   ERedirect (lockfile_of g)].
Proof.
  intros Hdata Hlock m. subst m.
  pose proof (genome_analyzer_gate E g server) as Hg. cbv zeta in Hg.
  rewrite Hg, Hlock. clear Hg.
  assert (Hrun : locked_run E g (output_dir_of g) (lockfile_of g) (logfile_of g)
                 = ([], inl (AttributeError "'NoneType' object has no attribute 'endswith'"))).
  { unfold locked_run. rewrite Hdata. reflexivity. }
  rewrite Hrun. cbn [trace result fst snd]. rewrite !app_nil_r.
  split; reflexivity.
Qed.

Lemma missing_DATA_aborts_before_reading_witness :
  result (genome_analyzer demo_env_no_data "/data/u1/genotype.gff" false)
  = inl (AttributeError "'NoneType' object has no attribute 'endswith'").
Proof.
  apply (missing_DATA_aborts_before_reading demo_env_no_data
           "/data/u1/genotype.gff" false eq_refl eq_refl).
Defined.

Lemma prepares_step (p : string) (c : list string) (w : fs) (e : event) :
  prepares e = true -> files w !! p = Some c ->
  files (apply_event w e) !! p = Some c.
Proof.
  intros He Hp. destruct e; simpl in He; try discriminate He;
    cbn [apply_event files]; try exact Hp.
  destruct (files w !! path) eqn:Hq; [exact Hp|].
  rewrite lookup_insert_ne; [exact Hp|]. intros ->. congruence.
Qed.

Lemma prepares_replay (p : string) (c : list string) (es : list event) :
  forall w, Forall (fun e => prepares e = true) es ->
            files w !! p = Some c -> files (replay w es) !! p = Some c.
Proof.
  induction es as [|e es IH]; intros w Hes Hp; [exact Hp|].
  inversion Hes as [|? ? He Hes']; subst. cbn [replay foldl].
  apply IH; [exact Hes'|]. apply prepares_step; assumption.
Qed.

(** Every event that is not a preparation is the flock call or comes after
    it, and after a failed flock it is the diagnostic print. *)
Lemma work_follows_flock (E : env) (g : string) (server : bool) (k : nat)
  (e : event) :
  trace (genome_analyzer E g server) !! k = Some e ->
  prepares e = false ->
  exists j ok,
    j <= k
    /\ trace (genome_analyzer E g server) !! j = Some (EFlock (lockfile_of g) ok)
    /\ (j < k -> ok = false -> e = EPrint "Lockfile really is locked.  Quitting.").
Proof.
  pose proof (genome_analyzer_gate E g server) as Hg. cbv zeta in Hg.
  rewrite Hg. clear Hg.
  remember ((if server then [EServerClose] else [])
            ++ [EMkdir (output_dir_of g); EOpenAppend (lockfile_of g)])
    as gate eqn:Hgate.
  assert (Hprep : forall x, x ∈ gate -> prepares x = true).
  { intros x Hx. subst gate. destruct server; simpl in Hx;
      repeat (apply elem_of_cons in Hx as [->|Hx]; [reflexivity|]);
      inversion Hx. }
  destruct (lock_status E (lockfile_of g)) as [created| |];
    cbn [trace fst]; intros Hk Hw.
  - exfalso. apply list_elem_of_lookup_2 in Hk.
    destruct server, created; simpl in Hk;
      repeat (apply elem_of_cons in Hk as [->|Hk]; [discriminate Hw|]);
      inversion Hk.
  - exists (length gate), false.
    split; [|split; [apply list_lookup_middle; reflexivity|]].
    + apply lookup_app_Some in Hk as [Hk | [Hle Hk]]; [|exact Hle].
      apply list_elem_of_lookup_2 in Hk. rewrite (Hprep _ Hk) in Hw.
      discriminate Hw.
    + intros Hlt _. apply lookup_app_Some in Hk as [Hk | [Hle Hk]].
      * apply lookup_lt_Some in Hk. lia.
      * destruct (k - length gate) as [|[|i]] eqn:Hi; [lia | |].
        -- simpl in Hk. injection Hk as <-. reflexivity.
        -- simpl in Hk. discriminate Hk.
  - exists (length gate), true.
    split; [|split; [apply list_lookup_middle; reflexivity | discriminate]].
    apply lookup_app_Some in Hk as [Hk | [Hle Hk]]; [|exact Hle].
    apply list_elem_of_lookup_2 in Hk. rewrite (Hprep _ Hk) in Hw.
    discriminate Hw.
Qed.

(** X17. Before it calls flock, a run only closes the inherited server
    socket, creates the workspace directory and opens the lock file in
    append mode (or fails to), and this leaves the content of every file
    that existed as it was.  Every other event is the flock call or comes
    after it, and after a failed flock it is the diagnostic print. *)
Theorem only_preparation_before_flock
  (E : env) (g : string) (server : bool) (w : fs) :
  let tr := trace (genome_analyzer E g server) in
  (forall k e,
     tr !! k = Some e -> prepares e = false ->
     exists j ok,
       j <= k /\ tr !! j = Some (EFlock (lockfile_of g) ok)
       /\ (j < k -> ok = false ->
           e = EPrint "Lockfile really is locked.  Quitting."))
  /\ (forall k p c,
       (forall i ok, i < k -> tr !! i <> Some (EFlock (lockfile_of g) ok)) ->
       files w !! p = Some c ->
       files (observed w tr k) !! p = Some c).
Proof.
  intros tr. subst tr. split; [intros k e; apply work_follows_flock|].
  intros k p c Hnone Hp. unfold observed. apply prepares_replay; [|exact Hp].
  apply Forall_forall. intros e He.
  apply list_elem_of_lookup_1 in He as [i Hi].
  apply lookup_take_Some in Hi as [Hi Hlt].
  destruct (prepares e) eqn:Hprep; [reflexivity|]. exfalso.
  destruct (work_follows_flock E g server i e Hi Hprep) as (j & ok & Hle & Hj & _).
  apply (Hnone j ok); [lia | exact Hj].
Qed.

Lemma only_preparation_before_flock_witness :
  exists j ok, j <= 6
    /\ trace (genome_analyzer demo_env "/data/u1/genotype.gff" false) !! j
       = Some (EFlock (lockfile_of "/data/u1/genotype.gff") ok)
    /\ (j < 6 -> ok = false ->
        EShell "cat /data/u1/genotype.gff"
        = EPrint "Lockfile really is locked.  Quitting.").
Proof.
  apply (proj1 (only_preparation_before_flock demo_env "/data/u1/genotype.gff"
                  false fresh_fs) 6 (EShell "cat /data/u1/genotype.gff"));
    reflexivity.
Defined.

(** The events of a finished run, in full. *)
Lemma finished_run_trace (E : env) (g : string) (server : bool) :
  result (genome_analyzer E g server) = inr Finished ->
  exists a build rest lines,
    chain_input E g = Some (a, build, rest)
    /\ miss_out a = path_join (output_dir_of g) "missing_coding.json"
    /\ nonsyn_out a = path_join (output_dir_of g) "ns.gff.gz"
    /\ getev_out a = path_join (output_dir_of g) "get-evidence.json"
    /\ metadata_out a = path_join (output_dir_of g) "metadata.json"
    /\ write_metadata E = inr lines
    /\ trace (genome_analyzer E g server) =
       (((if server then [EServerClose] else [])
         ++ [EMkdir (output_dir_of g); EOpenAppend (lockfile_of g)])
        ++ [EFlock (lockfile_of g) true; ETruncate (lockfile_of g);
            ERedirect (lockfile_of g)])
       ++ (ELogPut "#status 0/100 calling process_source to process and sortinginput file"
           :: trace (process_source E g)
           ++ [ELogPut "#status 4 processing genome data (get reference alleles, dbSNP IDs, nonsynonymous changes, etc.)"])
       ++ full_drain E a build rest
       ++ EMove (tmp_of (getev_out a)) (getev_out a)
       :: (EOpenWrite (metadata_out a)
           :: map (EWrite (metadata_out a)) lines ++ [EClose (metadata_out a)])
       ++ finale g.
Proof.
  intros Hfin.
  destruct (finished_all_steps E g server Hfin)
    as (Hfree & a & build & rest & lines & Hci & Hexn & Hmd).
  destruct (drained_run_trace E g server a build rest Hfree Hci Hexn)
    as ((H1 & H2 & H3 & H4) & Ht & _).
  exists a, build, rest, lines.
  repeat (split; [assumption|]).
  rewrite Ht, Hmd.
  repeat (progress (rewrite <- ?app_assoc; cbn [app])). reflexivity.
Qed.

Lemma move_other (src dst q : string) (w : fs) :
  src <> q -> dst <> q -> files (move src dst w) !! q = files w !! q.
Proof.
  intros Hs Hd. unfold move. destruct (files w !! src); [|reflexivity].
  cbn [files]. rewrite lookup_insert_ne, lookup_delete_ne by assumption.
  reflexivity.
Qed.

(** Draining the chain appends the yielded lines, each with a newline, to
    the compressed output and to nothing else under that name. *)
Lemma drain_replay (a : args) (lock : string)
  (ps : list (list stage_write * string)) : forall (w : fs) (c : list string),
  String.eqb lock (nonsyn_out a) = false ->
  String.eqb (miss_out a) (nonsyn_out a) = false ->
  String.eqb (tmp_of (getev_out a)) (nonsyn_out a) = false ->
  logs_to lock w ->
  files w !! nonsyn_out a = Some c ->
  logs_to lock (replay w (drain a ps))
  /\ files (replay w (drain a ps)) !! nonsyn_out a
     = Some (c ++ map (fun pl => with_nl (snd pl)) ps).
Proof.
  induction ps as [|[ws line] ps IH]; intros w c Hl Hm Ht Hw Hc.
  - simpl. rewrite app_nil_r. tauto.
  - cbn [drain]. rewrite replay_app.
    destruct (body_events_replay lock (nonsyn_out a) (map (stage_event a) ws) w
                Hl Hw (stage_events_body a _ ws Hm Ht)) as (Hw1 & Hf1 & _).
    set (w1 := replay w (map (stage_event a) ws)) in *.
    cbn [replay foldl]. fold (replay (apply_event w1 (EWrite (nonsyn_out a) (with_nl line)))
                                (drain a ps)).
    destruct (IH (apply_event w1 (EWrite (nonsyn_out a) (with_nl line)))
                (c ++ [with_nl line]) Hl Hm Ht) as (Hw2 & Hf2).
    + exact Hw1.
    + cbn [apply_event]. unfold append_file, set_files. cbn [files].
      rewrite lookup_insert_eq, Hf1, Hc. reflexivity.
    + split; [exact Hw2|]. rewrite Hf2, <- app_assoc. reflexivity.
Qed.

(** X18. After a finished run the compressed output holds exactly the
    lines the stage chain yielded, in their order, each followed by a
    newline, whatever was under that name before. *)
Theorem compressed_output_holds_chain_lines
  (E : env) (g : string) (server : bool) (w : fs) :
  result (genome_analyzer E g server) = inr Finished ->
  exists a build rest,
    chain_input E g = Some (a, build, rest)
    /\ files (replay w (trace (genome_analyzer E g server)))
         !! path_join (output_dir_of g) "ns.gff.gz"
       = Some (map (fun pl => with_nl (snd pl))
                 (pulls (stage_chain E a build rest))).
Proof.
  intros Hfin.
  destruct (finished_run_trace E g server Hfin)
    as (a & build & rest & lines & Hci & Hmiss & Hns & Hgetev & Hmd & _ & Ht).
  exists a, build, rest. split; [exact Hci|]. rewrite Ht. clear Ht.
  remember (path_join (output_dir_of g) "ns.gff.gz") as p eqn:Hp.
  assert (Hlp : String.eqb (lockfile_of g) p = false).
  { subst p. apply join_output_dir_ne0; [reflexivity | reflexivity | discriminate]. }
  assert (Hlogp : String.eqb (logfile_of g) p = false).
  { subst p. apply join_output_dir_ne0; [reflexivity | reflexivity | discriminate]. }
  assert (Hmp : String.eqb (miss_out a) p = false).
  { subst p. rewrite Hmiss.
    apply join_output_dir_ne0; [reflexivity | reflexivity | discriminate]. }
  assert (Htp : String.eqb (tmp_of (getev_out a)) p = false).
  { subst p. rewrite Hgetev.
    apply join_output_dir_ne; [reflexivity | reflexivity | discriminate]. }
  assert (Hgp : String.eqb (getev_out a) p = false).
  { subst p. rewrite Hgetev.
    apply join_output_dir_ne0; [reflexivity | reflexivity | discriminate]. }
  assert (Hdp : String.eqb (metadata_out a) p = false).
  { subst p. rewrite Hmd.
    apply join_output_dir_ne0; [reflexivity | reflexivity | discriminate]. }
  assert (Hlt : String.eqb (lockfile_of g) (tmp_of (getev_out a)) = false).
  { rewrite Hgetev, String.eqb_sym.
    apply join_output_dir_ne; [reflexivity | reflexivity | discriminate]. }
  rewrite <- Hns in *.
  (* the gate *)
  rewrite replay_app.
  destruct (after_gate g server w) as (Hw1 & _ & _).
  set (w1 := replay w _) in *.
  (* reading and sorting the input *)
  rewrite replay_app.
  assert (Hpre : Forall (fun e => body_event (nonsyn_out a) e = true)
            (ELogPut "#status 0/100 calling process_source to process and sortinginput file"
             :: trace (process_source E g)
             ++ [ELogPut "#status 4 processing genome data (get reference alleles, dbSNP IDs, nonsynonymous changes, etc.)"])).
  { constructor; [reflexivity|]. apply Forall_app.
    split; [apply process_source_body | repeat constructor]. }
  destruct (body_events_replay _ _ _ w1 Hlp Hw1 Hpre) as (Hw2 & _ & _).
  set (w2 := replay w1 _) in *.
  (* the drain *)
  unfold full_drain. rewrite replay_app.
  set (run := stage_chain E a build rest).
  change (EOpenWrite (nonsyn_out a)
          :: drain a (pulls run) ++ map (stage_event a) (final_writes run)
          ++ [EClose (nonsyn_out a)])
    with ([EOpenWrite (nonsyn_out a)]
          ++ drain a (pulls run) ++ map (stage_event a) (final_writes run)
          ++ [EClose (nonsyn_out a)]).
  rewrite !replay_app.
  set (w3 := replay w2 [EOpenWrite (nonsyn_out a)]).
  assert (Hw3 : logs_to (lockfile_of g) w3 /\ files w3 !! nonsyn_out a = Some []).
  { subst w3. cbn [replay foldl apply_event]. unfold set_files, logs_to.
    cbn [files stdout_to log_handle]. split; [exact Hw2 | apply lookup_insert_eq]. }
  destruct Hw3 as [Hw3 Hf3].
  destruct (drain_replay a (lockfile_of g) (pulls run) w3 [] Hlp Hmp Htp Hw3 Hf3)
    as (Hw4 & Hf4).
  set (w4 := replay w3 (drain a (pulls run))) in *.
  destruct (body_events_replay _ (nonsyn_out a)
              (map (stage_event a) (final_writes run)) w4 Hlp Hw4
              (stage_events_body a _ _ Hmp Htp)) as (Hw5 & Hf5 & _).
  set (w5 := replay w4 (map (stage_event a) (final_writes run))) in *.
  assert (Hclose : Forall (fun e => body_event (nonsyn_out a) e = true)
                     [EClose (nonsyn_out a)]) by (repeat constructor).
  destruct (body_events_replay _ _ _ w5 Hlp Hw5 Hclose) as (Hw6 & Hf6 & _).
  set (w6 := replay w5 [EClose (nonsyn_out a)]) in *.
  (* the move of the evidence report *)
  change (EMove (tmp_of (getev_out a)) (getev_out a)
          :: (EOpenWrite (metadata_out a)
              :: map (EWrite (metadata_out a)) lines ++ [EClose (metadata_out a)])
          ++ finale g)
    with ([EMove (tmp_of (getev_out a)) (getev_out a)]
          ++ (EOpenWrite (metadata_out a)
              :: map (EWrite (metadata_out a)) lines ++ [EClose (metadata_out a)])
          ++ finale g).
  rewrite !replay_app.
  set (w7 := replay w6 [EMove (tmp_of (getev_out a)) (getev_out a)]).
  assert (Hw7 : logs_to (lockfile_of g) w7
                /\ files w7 !! nonsyn_out a = files w6 !! nonsyn_out a).
  { subst w7. cbn [replay foldl apply_event]. split.
    - apply move_logs_to; assumption.
    - apply move_other; apply String.eqb_neq; assumption. }
  destruct Hw7 as [Hw7 Hf7].
  (* the metadata report and the end *)
  destruct (body_events_replay _ _ _ w7 Hlp Hw7
              (metadata_events_body (metadata_out a) _ lines Hdp))
    as (Hw8 & Hf8 & _).
  set (w8 := replay w7 _) in *.
  rewrite (quiet_full _ _ _ (finale_quiet g _ w8 Hw8 Hlp Hlogp)).
  rewrite Hf8, Hf7, Hf6, Hf5, Hf4. reflexivity.
Qed.

Lemma compressed_output_holds_chain_lines_witness :
  exists a build rest,
    chain_input demo_env "/data/u4/genotype.gff" = Some (a, build, rest)
    /\ files (replay fresh_fs
                (trace (genome_analyzer demo_env "/data/u4/genotype.gff" false)))
         !! path_join (output_dir_of "/data/u4/genotype.gff") "ns.gff.gz"
       = Some (map (fun pl => with_nl (snd pl))
                 (pulls (stage_chain demo_env a build rest))).
Proof.
  apply (compressed_output_holds_chain_lines demo_env "/data/u4/genotype.gff"
           false fresh_fs).
  vm_compute. reflexivity.
Defined.
